(** * counter-service: a persistent counter behind a file lock

    A shallow embedding of [app/counter_service.py] and proofs about it.

    The service keeps one integer in a JSON file.  [POST /] takes an
    exclusive [flock] on a sibling lock file, reads the counter, adds one,
    writes it back through a temporary file that is renamed over the counter
    file, and releases the lock.  [GET /] reads the counter without locking.

    Layout of this file:
    - [Py]: the Python values, exceptions and conversions the code relies on
      ([int()], [dict.get], [repr] of an [int]);
    - [Json]: [json.loads] and [json.dump] for the documents of the service;
    - [Pathlib]: [Path], [with_suffix], [parent], [str(path)];
    - [Os]: the world the code acts on (files, open handles, [flock] locks,
      the log) and its atomic actions;
    - [Prog]: programs as trees of atomic actions, with [try]/[finally] and
      [try]/[except];
    - [CounterService]: the functions of [counter_service.py], in source order;
    - [Spec]: the vocabulary of the statements;
    - the theorems.

    Modelling boundaries.  Python's [int] is [Z]; a conversion between [int]
    and [str] fails beyond 4300 digits, as in CPython 3.11.  Text is a
    [string] of UTF-8 bytes.  The file system is flat: a finite map from the
    path string handed to the operating system to the bytes of a regular
    file, without links or directories; opening a file for writing and
    creating a directory succeed, while looking for a file that is not there
    can end in an error of the operating system.  A file object keeps what is
    written to it in its buffer until it is closed; the documents of the
    service are far shorter than the buffer.  A file that is there can be
    read by every caller.  A lock is on a path, not on the file behind it.
    The interpreter's stack has room for the calls of the service itself
    and for at least one JSON array or object; a syntax error the scanner
    meets within the last few arrays and objects the stack has room for is
    a [RecursionError] in CPython and a [JSONDecodeError] here, and
    [_read_counter] absorbs the one as the other.  Exception messages
    follow CPython 3.11 where that is cheap; nothing proved below depends
    on their text. *)

From Stdlib Require Import ZArith String Ascii List Lia DecimalString DecimalZ.
From Stdlib Require Import Floats.SpecFloat.
From stdpp Require Import gmap strings list.

Open Scope string_scope.
Open Scope Z_scope.

(** ** Python values, exceptions and conversions *)

Module Py.

(** The exception classes that occur; all of them derive from [Exception]. *)
Inductive exn_class :=
| ValueError | JSONDecodeError | UnicodeDecodeError | TypeError | AttributeError
| OverflowError | RecursionError | OSError | FileNotFoundError | PermissionError.

(** An exception: its class and [str(e)]. *)
Record exn := Exn { exn_cls : exn_class; exn_str : string }.

(** A pure computation that returns or raises. *)
Definition res (A : Type) : Type := exn + A.

Definition raise {A} (c : exn_class) (msg : string) : res A := inl (Exn c msg).

Definition res_bind {A B} (r : res A) (f : A -> res B) : res B :=
  match r with inl e => inl e | inr a => f a end.

(** The values [json.load] can return. A [dict] keeps its pairs in the order
    of the document; [dict_lookup] lets the last pair of a key win, as
    [dict(pairs)] does. *)
#[warnings="-register-all"]
Inductive value :=
| PNone
| PBool (b : bool)
| PInt (z : Z)
| PFloat (f : spec_float)
| PStr (s : string)
| PList (l : list value)
| PDict (d : list (string * value)).

Definition type_name (v : value) : string :=
  match v with
  | PNone => "NoneType" | PBool _ => "bool" | PInt _ => "int"
  | PFloat _ => "float" | PStr _ => "str" | PList _ => "list"
  | PDict _ => "dict"
  end.

Fixpoint dict_lookup (k : string) (d : list (string * value)) : option value :=
  match d with
  | [] => None
  | (k', v) :: d' =>
      match dict_lookup k d' with
      | Some v' => Some v'
      | None => if String.eqb k k' then Some v else None
      end
  end.

(** [data.get(key, default)]: only a [dict] has [get]. *)
Definition get (data : value) (key : string) (default : value) : res value :=
  match data with
  | PDict d => inr (match dict_lookup key d with Some v => v | None => default end)
  | _ => raise AttributeError
           ("'" +:+ type_name data +:+ "' object has no attribute 'get'")
  end.

(** *** [int] to text and back *)

Definition quote : string := String "039" EmptyString.

(** The decimal digits of [z], [-] in front of a negative number. *)
Definition decimal (z : Z) : string := NilZero.string_of_int (Z.to_int z).

Definition repr_nat (n : nat) : string := decimal (Z.of_nat n).

(** [sys.get_int_max_str_digits()]: the digits a conversion between [int]
    and [str] may have. *)
Definition max_str_digits : nat := 4300.

(** [repr(z)] and [str(z)] for an [int]: [ValueError] for a number of more
    than 4300 digits. *)
Definition repr_int (z : Z) : res string :=
  if 10 ^ Z.of_nat max_str_digits <=? Z.abs z then
    raise ValueError
      ("Exceeds the limit (4300 digits) for integer string conversion; "
       +:+ "use sys.set_int_max_str_digits() to increase the limit")
  else inr (decimal z).

Definition is_digit (c : ascii) : bool :=
  let n := nat_of_ascii c in (48 <=? n)%nat && (n <=? 57)%nat.

(** The ASCII characters [int()] strips from both ends of its argument. *)
Definition is_space (c : ascii) : bool :=
  let n := nat_of_ascii c in ((9 <=? n)%nat && (n <=? 13)%nat) || (n =? 32)%nat.

Fixpoint lstrip (s : string) : string :=
  match s with
  | String c s' => if is_space c then lstrip s' else s
  | EmptyString => EmptyString
  end.

(** The characters above U+007F that [str.isspace] accepts. *)
Definition unicode_space (u : N) : bool :=
  ((u =? 133) || (u =? 160) || (u =? 5760) || ((8192 <=? u) && (u <=? 8202))
   || (u =? 8232) || (u =? 8233) || (u =? 8239) || (u =? 8287) || (u =? 12288))%N.

(** The code points of the digits zero of Unicode 14; the digits one to
    nine follow each of them. *)
Definition unicode_zeros : list N :=
  [1632; 1776; 1984; 2406; 2534; 2662; 2790; 2918; 3046; 3174; 3302; 3430; 3558;
   3664; 3792; 3872; 4160; 4240; 6112; 6160; 6470; 6608; 6784; 6800; 6992; 7088;
   7232; 7248; 42528; 43216; 43264; 43472; 43504; 43600; 44016; 65296; 66720;
   68912; 69734; 69872; 69942; 70096; 70384; 70736; 70864; 71248; 71360; 71472;
   71904; 72016; 72784; 73040; 73120; 92768; 92864; 93008; 120782; 120792;
   120802; 120812; 120822; 123200; 123632; 125264; 130032]%N.

(** [unicodedata.decimal] of a character above U+007F. *)
Definition unicode_decimal (u : N) : option N :=
  match List.find (fun z => (z <=? u) && (u <? z + 10))%N unicode_zeros with
  | Some z => Some (u - z)%N
  | None => None
  end.

(** What [int()] makes of a character above U+007F before it reads the
    text: a space of a space, an ASCII digit of a decimal digit, [?] of any
    other. *)
Definition to_ascii (u : N) : ascii :=
  if unicode_space u then " "%char
  else match unicode_decimal u with
       | Some d => ascii_of_N (48 + d)
       | None => "?"%char
       end.

(** The text with every character above U+007F replaced in that way. The
    text is read as UTF-8: [need] bytes of a character are still to come and
    [acc] holds the bits of those seen; bytes that are no UTF-8 give [?]. *)
Fixpoint transform (s : string) (need : nat) (acc : N) : string :=
  match s with
  | EmptyString => match need with O => EmptyString | _ => "?" end
  | String c t =>
      let n := N_of_ascii c in
      match need with
      | O =>
          if (n <? 128)%N then String c (transform t 0 0)
          else if ((192 <=? n) && (n <? 224))%N then transform t 1 (n - 192)
          else if ((224 <=? n) && (n <? 240))%N then transform t 2 (n - 224)
          else if ((240 <=? n) && (n <? 248))%N then transform t 3 (n - 240)
          else String "?" (transform t 0 0)
      | S need' =>
          if ((128 <=? n) && (n <? 192))%N then
            let acc' := (acc * 64 + (n - 128))%N in
            match need' with
            | O => String (to_ascii acc') (transform t 0 0)
            | _ => transform t need' acc'
            end
          else String "?" (transform t 0 0)
      end
  end.

(** The longest prefix of digits and underscores, and what follows it. *)
Fixpoint span_run (s : string) : string * string :=
  match s with
  | String c t =>
      if is_digit c || Ascii.eqb c "_"
      then let '(run, rest) := span_run t in (String c run, rest)
      else (EmptyString, s)
  | EmptyString => (EmptyString, EmptyString)
  end.

(** Digits with single underscores between them; the result drops the
    underscores. [prev] tells whether the previous character was a digit. *)
Fixpoint digits_sep (s : string) (prev : bool) : option string :=
  match s with
  | EmptyString => if prev then Some EmptyString else None
  | String c s' =>
      if is_digit c then String c <$> digits_sep s' true
      else if Ascii.eqb c "_" then (if prev then digits_sep s' false else None)
      else None
  end.

(** The number a string of digits writes. *)
Definition digits_value (ds : string) : Z :=
  match NilEmpty.uint_of_string ds with Some d => Z.of_uint d | None => 0 end.

Definition invalid_literal {A} (s : string) : res A :=
  raise ValueError ("invalid literal for int() with base 10: " +:+ quote +:+ s +:+ quote).

(** The digits of [int(s)] and what follows them; [u] is the text after the
    sign. The digits are counted before what follows them is looked at. *)
Definition int_of_digits (s : string) (neg : bool) (u : string) : res Z :=
  let '(run, rest) := span_run u in
  match digits_sep run false with
  | None => invalid_literal s
  | Some ds =>
      if (max_str_digits <? String.length ds)%nat then
        raise ValueError
          ("Exceeds the limit (4300 digits) for integer string conversion: value has "
           +:+ repr_nat (String.length ds)
           +:+ " digits; use sys.set_int_max_str_digits() to increase the limit")
      else
        match lstrip rest with
        | EmptyString => inr (if neg then - digits_value ds else digits_value ds)
        | _ => invalid_literal s
        end
  end.

(** [int(s)] for a [str], base 10: spaces, a sign, digits with single
    underscores between them, spaces. *)
Definition int_of_str (s : string) : res Z :=
  match lstrip (transform s 0 0) with
  | String "-" u => int_of_digits s true u
  | String "+" u => int_of_digits s false u
  | t => int_of_digits s false t
  end.

(** *** [float] *)

Definition prec : Z := 53.
Definition emax : Z := 1024.

(** [float(text)] for a decimal literal of value [(-1)^neg * m * 10^e] with
    [0 <= m]: the nearest binary64 number, ties to even. *)
Definition float_of_decimal (neg : bool) (m : Z) (e : Z) : spec_float :=
  match m with
  | Zpos p =>
      if 0 <=? e then
        match m * 10 ^ e with
        | Zpos n => binary_round prec emax neg n 0
        | _ => S754_zero neg
        end
      else
        let d := 10 ^ (- e) in
        let s := Z.max 0 (Z.log2 d + 64 - Z.log2 m) in
        let n := m * 2 ^ s in
        let q := n / d in
        let r := n mod d in
        let loc := if r =? 0 then loc_Exact else loc_Inexact (2 * r ?= d) in
        binary_round_aux prec emax neg q (- s) loc
  | _ => S754_zero neg
  end.

(** [int(f)] for a [float]: truncation towards zero. *)
Definition int_of_float (f : spec_float) : res Z :=
  match f with
  | S754_zero _ => inr 0
  | S754_finite s m e =>
      let a := if 0 <=? e then Zpos m * 2 ^ e else Zpos m / 2 ^ (- e) in
      inr (if s then - a else a)
  | S754_infinity _ => raise OverflowError "cannot convert float infinity to integer"
  | S754_nan => raise ValueError "cannot convert float NaN to integer"
  end.

(** [int(v)]. *)
Definition int (v : value) : res Z :=
  match v with
  | PInt z => inr z
  | PBool b => inr (if b then 1 else 0)
  | PFloat f => int_of_float f
  | PStr s => int_of_str s
  | _ => raise TypeError
           ("int() argument must be a string, a bytes-like object or a real number, not "
            +:+ quote +:+ type_name v +:+ quote)
  end.

End Py.

(** ** [json]: reading and writing documents *)

Module Json.
Import Py.

(** The result of scanning a prefix of the document. [pos] is the index of
    the next character, as CPython reports it in its messages. *)
Inductive scan (A : Type) :=
| Scanned (a : A) (rest : string) (pos : nat)
| Stop (pos : nat)                  (* no value starts here *)
| Fail (msg : string) (pos : nat)   (* [JSONDecodeError(msg, doc, pos)] *)
| Throws (e : exn).                 (* an exception of a function the scanner calls *)
Arguments Scanned {A}. Arguments Stop {A}. Arguments Fail {A}. Arguments Throws {A}.

Definition scan_bind {A B} (r : scan A) (f : A -> string -> nat -> scan B) : scan B :=
  match r with
  | Scanned a rest pos => f a rest pos
  | Stop pos => Stop pos
  | Fail msg pos => Fail msg pos
  | Throws e => Throws e
  end.

Definition dq : ascii := "034".

Definition is_ws (c : ascii) : bool :=
  Ascii.eqb c " " || Ascii.eqb c "009" || Ascii.eqb c "010" || Ascii.eqb c "013".

Fixpoint skip_ws (s : string) (pos : nat) : string * nat :=
  match s with
  | String c t => if is_ws c then skip_ws t (S pos) else (s, pos)
  | EmptyString => (s, pos)
  end.

Fixpoint drop (n : nat) (s : string) : string :=
  match n, s with
  | S n', String _ t => drop n' t
  | _, _ => s
  end.

(** *** Strings *)

Definition hex_value (c : ascii) : option N :=
  let n := N_of_ascii c in
  if ((48 <=? n) && (n <=? 57))%N then Some (n - 48)%N
  else if ((65 <=? n) && (n <=? 70))%N then Some (n - 55)%N
  else if ((97 <=? n) && (n <=? 102))%N then Some (n - 87)%N
  else None.

Definition byte (n : N) : string := String (ascii_of_N n) EmptyString.

(** The UTF-8 bytes of a code point (a lone surrogate is written like any
    other three-byte code point). *)
Definition utf8 (u : N) : string :=
  (if u <? 128 then byte u
   else if u <? 2048 then byte (192 + u / 64) +:+ byte (128 + u mod 64)
   else if u <? 65536 then
     byte (224 + u / 4096) +:+ byte (128 + (u / 64) mod 64) +:+ byte (128 + u mod 64)
   else
     byte (240 + u / 262144) +:+ byte (128 + (u / 4096) mod 64)
     +:+ byte (128 + (u / 64) mod 64) +:+ byte (128 + u mod 64))%N.

Definition is_high (u : N) : bool := ((55296 <=? u) && (u <=? 56319))%N.
Definition is_low (u : N) : bool := ((56320 <=? u) && (u <=? 57343))%N.
Definition join (hi lo : N) : N := (65536 + (hi - 55296) * 1024 + (lo - 56320))%N.

(** Where the scanner is inside a string literal. *)
Inductive sstate :=
| SPlain (hi : option N)                 (* [hi]: a high surrogate not yet written *)
| SBackslash (hi : option N) (bpos : nat)
| SHex (hi : option N) (upos : nat) (k : nat) (acc : N).

Definition emit (out : string) (r : scan string) : scan string :=
  match r with
  | Scanned a rest pos => Scanned (out +:+ a) rest pos
  | other => other
  end.

Definition pending (hi : option N) : string :=
  match hi with Some h => utf8 h | None => EmptyString end.

Definition simple_escape (c : ascii) : option ascii :=
  if Ascii.eqb c dq then Some dq
  else if Ascii.eqb c "\" then Some "\"%char
  else if Ascii.eqb c "/" then Some "/"%char
  else if Ascii.eqb c "b" then Some "008"%char
  else if Ascii.eqb c "f" then Some "012"%char
  else if Ascii.eqb c "n" then Some "010"%char
  else if Ascii.eqb c "r" then Some "013"%char
  else if Ascii.eqb c "t" then Some "009"%char
  else None.

(** [scanstring]: [s] starts after the opening quote, [pos] is the index of
    its first character and [begin] the index of the opening quote. *)
Fixpoint scanstring (s : string) (pos begin : nat) (st : sstate) : scan string :=
  match s with
  | EmptyString =>
      match st with
      | SHex _ upos _ _ => Fail "Invalid \uXXXX escape" upos
      | _ => Fail "Unterminated string starting at" begin
      end
  | String c t =>
      match st with
      | SPlain hi =>
          if Ascii.eqb c dq then Scanned (pending hi) t (S pos)
          else if Ascii.eqb c "\" then scanstring t (S pos) begin (SBackslash hi pos)
          else if (N_of_ascii c <? 32)%N then Fail "Invalid control character at" pos
          else emit (pending hi +:+ String c EmptyString)
                    (scanstring t (S pos) begin (SPlain None))
      | SBackslash hi bpos =>
          if Ascii.eqb c "u" then scanstring t (S pos) begin (SHex hi pos 4 0)
          else match simple_escape c with
               | Some c' => emit (pending hi +:+ String c' EmptyString)
                                 (scanstring t (S pos) begin (SPlain None))
               | None => Fail "Invalid \escape" bpos
               end
      | SHex hi upos k acc =>
          match hex_value c, t with
          | Some d, String _ _ =>
              let u := (acc * 16 + d)%N in
              match k with
              | S (S k') => scanstring t (S pos) begin (SHex hi upos (S k') u)
              | _ =>
                  match hi with
                  | Some h =>
                      if is_low u then
                        emit (utf8 (join h u)) (scanstring t (S pos) begin (SPlain None))
                      else if is_high u then
                        emit (utf8 h) (scanstring t (S pos) begin (SPlain (Some u)))
                      else
                        emit (utf8 h +:+ utf8 u) (scanstring t (S pos) begin (SPlain None))
                  | None =>
                      if is_high u then scanstring t (S pos) begin (SPlain (Some u))
                      else emit (utf8 u) (scanstring t (S pos) begin (SPlain None))
                  end
              end
          | _, _ => Fail "Invalid \uXXXX escape" upos
          end
      end
  end.

(** *** Numbers *)

Fixpoint span_digits (s : string) : string * string :=
  match s with
  | String c t =>
      if is_digit c then let '(ds, rest) := span_digits t in (String c ds, rest)
      else (EmptyString, s)
  | EmptyString => (EmptyString, EmptyString)
  end.

(** The integer part: [0], or a non-zero digit followed by digits. *)
Definition match_integer (s : string) : option (string * string) :=
  match s with
  | String "0" t => Some ("0", t)
  | String c t =>
      if is_digit c then let '(ds, rest) := span_digits t in Some (String c ds, rest)
      else None
  | EmptyString => None
  end.

(** The fraction: a dot followed by at least one digit. *)
Definition match_frac (s : string) : option (string * string) :=
  match s with
  | String "." t =>
      match span_digits t with
      | (String c ds, rest) => Some (String c ds, rest)
      | _ => None
      end
  | _ => None
  end.

(** The exponent: [e] or [E], an optional sign, at least one digit. The
    result also gives the number of characters taken. *)
Definition match_exp (s : string) : option (Z * nat * string) :=
  match s with
  | String c t =>
      if Ascii.eqb c "e" || Ascii.eqb c "E" then
        let '(neg, signed, t') :=
          match t with
          | String "-" u => (true, 1%nat, u)
          | String "+" u => (false, 1%nat, u)
          | _ => (false, 0%nat, t)
          end in
        match span_digits t' with
        | (String d ds, rest) =>
            let v := digits_value (String d ds) in
            Some (if neg then - v else v, (1 + signed + String.length (String d ds))%nat, rest)
        | _ => None
        end
      else None
  | EmptyString => None
  end.

(** A number at the head of [s]: its value, the rest and the characters
    taken. An integer literal goes through [int()], which raises
    [ValueError] beyond 4300 digits, the others through [float()]. *)
Definition match_number (s : string) : option (res value * string * nat) :=
  let '(neg, body) :=
    match s with String "-" t => (true, t) | _ => (false, s) end in
  match match_integer body with
  | None => None
  | Some (int_ds, r1) =>
      let n1 := ((if neg then 1 else 0) + String.length int_ds)%nat in
      let '(frac_ds, r2) :=
        match match_frac r1 with Some (ds, r) => (Some ds, r) | None => (None, r1) end in
      let n2 := match frac_ds with Some ds => S (String.length ds) | None => 0%nat end in
      let '(exp, n3, r3) :=
        match match_exp r2 with Some (e, n, r) => (Some e, n, r) | None => (None, 0%nat, r2) end in
      let v :=
        match frac_ds, exp with
        | None, None =>
            res_bind (int_of_str ((if neg then "-" else EmptyString) +:+ int_ds)) (fun z => inr (PInt z))
        | _, _ =>
            let fd := match frac_ds with Some ds => ds | None => EmptyString end in
            let e := match exp with Some e => e | None => 0 end in
            inr (PFloat (float_of_decimal neg (digits_value (int_ds +:+ fd))
                           (e - Z.of_nat (String.length fd))))
        end in
      Some (v, r3, (n1 + n2 + n3)%nat)
  end.

(** *** Values *)

Definition literal (lit : string) (v : value) (s : string) (pos : nat)
    (otherwise : scan value) : scan value :=
  if String.prefix lit s
  then Scanned v (drop (String.length lit) s) (pos + String.length lit)
  else otherwise.

(** A number, or one of the constants [NaN], [Infinity] and [-Infinity]. *)
Definition scan_number (s : string) (pos : nat) : scan value :=
  match match_number s with
  | Some (inr v, rest, n) => Scanned v rest (pos + n)
  | Some (inl e, _, _) => Throws e
  | None =>
      literal "NaN" (PFloat S754_nan) s pos
        (literal "Infinity" (PFloat (S754_infinity false)) s pos
           (literal "-Infinity" (PFloat (S754_infinity true)) s pos (Stop pos)))
  end.

(** What [Py_EnterRecursiveCall] raises when the stack is full. *)
Definition recursion_error (what : string) : exn :=
  Exn RecursionError
      ("maximum recursion depth exceeded while decoding a JSON " +:+ what
       +:+ " from a unicode string").

(** [scan_once], [JSONObject] and [JSONArray]. [room] is the number of
    arrays and objects the scanner may still enter before the interpreter's
    recursion limit stops it. [fuel] bounds the calls of the three functions;
    of two calls in a row at least one takes a character from the document,
    so twice its length is enough. *)
Fixpoint scan_once (fuel room : nat) (s : string) (pos : nat) : scan value :=
  match fuel with
  | O => Stop pos
  | S fuel' =>
      match s with
      | EmptyString => Stop pos
      | String c t =>
          if Ascii.eqb c dq then
            scan_bind (scanstring t (S pos) pos (SPlain None))
                      (fun x rest p => Scanned (PStr x) rest p)
          else if Ascii.eqb c "{" then
            match room with
            | O => Throws (recursion_error "object")
            | S room' =>
                let '(t1, p1) := skip_ws t (S pos) in
                match t1 with
                | String "}" t2 => Scanned (PDict []) t2 (S p1)
                | _ => scan_bind (object_loop fuel' room' t1 p1)
                                 (fun d rest p => Scanned (PDict d) rest p)
                end
            end
          else if Ascii.eqb c "[" then
            match room with
            | O => Throws (recursion_error "array")
            | S room' =>
                let '(t1, p1) := skip_ws t (S pos) in
                match t1 with
                | String "]" t2 => Scanned (PList []) t2 (S p1)
                | _ => scan_bind (array_loop fuel' room' t1 p1)
                                 (fun l rest p => Scanned (PList l) rest p)
                end
            end
          else literal "null" PNone s pos
                 (literal "true" (PBool true) s pos
                    (literal "false" (PBool false) s pos (scan_number s pos)))
      end
  end

with object_loop (fuel room : nat) (s : string) (pos : nat) : scan (list (string * value)) :=
  match fuel with
  | O => Stop pos
  | S fuel' =>
      match s with
      | String c t =>
          if Ascii.eqb c dq then
            scan_bind (scanstring t (S pos) pos (SPlain None)) (fun key r1 p1 =>
            let '(r2, p2) := skip_ws r1 p1 in
            match r2 with
            | String ":" r3 =>
                let '(r4, p4) := skip_ws r3 (S p2) in
                match scan_once fuel' room r4 p4 with
                | Stop p => Fail "Expecting value" p
                | Fail msg p => Fail msg p
                | Throws e => Throws e
                | Scanned v r5 p5 =>
                    let '(r6, p6) := skip_ws r5 p5 in
                    match r6 with
                    | String "}" r7 => Scanned [(key, v)] r7 (S p6)
                    | String "," r7 =>
                        let '(r8, p8) := skip_ws r7 (S p6) in
                        scan_bind (object_loop fuel' room r8 p8)
                                  (fun d rest p => Scanned ((key, v) :: d) rest p)
                    | _ => Fail "Expecting ',' delimiter" p6
                    end
                end
            | _ => Fail "Expecting ':' delimiter" p2
            end)
          else Fail "Expecting property name enclosed in double quotes" pos
      | EmptyString => Fail "Expecting property name enclosed in double quotes" pos
      end
  end

with array_loop (fuel room : nat) (s : string) (pos : nat) : scan (list value) :=
  match fuel with
  | O => Stop pos
  | S fuel' =>
      match scan_once fuel' room s pos with
      | Stop p => Fail "Expecting value" p
      | Fail msg p => Fail msg p
      | Throws e => Throws e
      | Scanned v r1 p1 =>
          let '(r2, p2) := skip_ws r1 p1 in
          match r2 with
          | String "]" r3 => Scanned [v] r3 (S p2)
          | String "," r3 =>
              let '(r4, p4) := skip_ws r3 (S p2) in
              scan_bind (array_loop fuel' room r4 p4) (fun l rest p => Scanned (v :: l) rest p)
          | _ => Fail "Expecting ',' delimiter" p2
          end
      end
  end.

(** *** [JSONDecodeError] *)

Fixpoint count_lines (s : string) (n : nat) (line col : nat) : nat * nat :=
  match n, s with
  | S n', String c t =>
      if Ascii.eqb c "010" then count_lines t n' (S line) 1 else count_lines t n' line (S col)
  | _, _ => (line, col)
  end.

Definition decode_error (msg doc : string) (pos : nat) : exn :=
  let '(line, col) := count_lines doc pos 1 1 in
  Exn JSONDecodeError
      (msg +:+ ": line " +:+ repr_nat line +:+ " column " +:+ repr_nat col
           +:+ " (char " +:+ repr_nat pos +:+ ")").

(** [json.loads(doc)] for a [str], with room for [room] nested arrays and
    objects. *)
Definition loads (room : nat) (doc : string) : res value :=
  if String.prefix (utf8 65279) doc then
    inl (decode_error "Unexpected UTF-8 BOM (decode using utf-8-sig)" doc 0)
  else
    let '(s0, p0) := skip_ws doc 0 in
    match scan_once (S (2 * String.length doc)) room s0 p0 with
    | Stop p => inl (decode_error "Expecting value" doc p)
    | Fail msg p => inl (decode_error msg doc p)
    | Throws e => inl e
    | Scanned v rest p =>
        match skip_ws rest p with
        | (EmptyString, _) => inr v
        | (_, p') => inl (decode_error "Extra data" doc p')
        end
    end.

(** *** Text files

    A file opened with [open("r", encoding="utf-8")] decodes its bytes as
    UTF-8 and turns every line ending into a line feed. *)

Definition between (lo hi : N) (c : ascii) : bool :=
  ((lo <=? N_of_ascii c) && (N_of_ascii c <=? hi))%N.

(** The ranges of the bytes that must follow the first byte of a character. *)
Definition utf8_tail (c : ascii) : option (list (N * N)) :=
  let cont := (128, 191)%N in
  if between 0 127 c then Some []
  else if between 194 223 c then Some [cont]
  else if between 224 224 c then Some [(160, 191)%N; cont]
  else if between 237 237 c then Some [(128, 159)%N; cont]
  else if between 225 239 c then Some [cont; cont]
  else if between 240 240 c then Some [(144, 191)%N; cont; cont]
  else if between 241 243 c then Some [cont; cont; cont]
  else if between 244 244 c then Some [(128, 143)%N; cont; cont]
  else None.

Fixpoint utf8_valid (s : string) (need : list (N * N)) : bool :=
  match s, need with
  | EmptyString, [] => true
  | EmptyString, _ :: _ => false
  | String c t, [] =>
      match utf8_tail c with Some need' => utf8_valid t need' | None => false end
  | String c t, (lo, hi) :: need' => between lo hi c && utf8_valid t need'
  end.

Fixpoint universal_newlines (s : string) : string :=
  match s with
  | EmptyString => EmptyString
  | String c t =>
      if Ascii.eqb c "013" then
        String "010" (match t with
                      | String "010" t' => universal_newlines t'
                      | _ => universal_newlines t
                      end)
      else String c (universal_newlines t)
  end.

(** [fp.read()] on the bytes [raw] of a file opened for reading as text. *)
Definition read_text (raw : string) : res string :=
  if utf8_valid raw [] then inr (universal_newlines raw)
  else raise UnicodeDecodeError "'utf-8' codec can't decode the bytes of the file".

(** [json.load(fp)] is [json.loads(fp.read())]. *)
Definition load (room : nat) (raw : string) : res value :=
  res_bind (read_text raw) (loads room).

(** The chunks [json.dump({"counter": value}, fp)] writes to [fp], in
    order; the encoder raises when it comes to a number [repr] refuses. *)
Definition dump_counter (value : Z) : list (res string) :=
  [inr "{"; inr (String dq "counter" +:+ String dq EmptyString); inr ": ";
   repr_int value; inr "}"].

Definition counter_prefix : string := "{" +:+ String dq "counter" +:+ String dq ": ".

(** The document [json.dump] writes for [value]. *)
Definition counter_text (value : Z) : string :=
  counter_prefix +:+ decimal value +:+ "}".

(** [json.dumps(payload)] raises as [repr] does when the payload holds a
    number of more than 4300 digits; its text is not modelled. *)
Fixpoint dumps_check (v : value) : res unit :=
  match v with
  | PInt z => res_bind (repr_int z) (fun _ => inr tt)
  | PList l =>
      (fix all (l : list value) : res unit :=
         match l with
         | [] => inr tt
         | x :: l' => res_bind (dumps_check x) (fun _ => all l')
         end) l
  | PDict d =>
      (fix all (d : list (string * value)) : res unit :=
         match d with
         | [] => inr tt
         | (_, x) :: d' => res_bind (dumps_check x) (fun _ => all d')
         end) d
  | _ => inr tt
  end.

(** Strings of decimal digits, and the characters a number starts with. *)
Fixpoint all_digits (s : string) : bool :=
  match s with
  | EmptyString => true
  | String c t => is_digit c && all_digits t
  end.

Definition number_start (c : ascii) : bool := is_digit c || Ascii.eqb c "-".

End Json.

(** ** [pathlib]: pure paths *)

Module Pathlib.
Import Py.

(** A POSIX path after parsing: the root ([/], [//] or none) and the
    components that follow it. *)
Record Path := mkPath { anchor : string; parts : list string }.

Fixpoint split_sep (s : string) : list string :=
  match s with
  | EmptyString => [EmptyString]
  | String c t =>
      if Ascii.eqb c "/" then EmptyString :: split_sep t
      else match split_sep t with
           | x :: r => String c x :: r
           | [] => [String c EmptyString]
           end
  end.

Fixpoint lstrip_sep (s : string) : string :=
  match s with
  | String c t => if Ascii.eqb c "/" then lstrip_sep t else s
  | EmptyString => EmptyString
  end.

Definition is_part (x : string) : bool :=
  negb (String.eqb x EmptyString) && negb (String.eqb x ".").

(** [Path(s)]. *)
Definition Path_of (s : string) : Path :=
  let rel := lstrip_sep s in
  let slashes := (String.length s - String.length rel)%nat in
  let root := match slashes with O => EmptyString | 2%nat => "//" | _ => "/" end in
  mkPath root (filter (fun x => Is_true (is_part x)) (split_sep rel)).

(** [str(p)], the string handed to the operating system. *)
Definition fspath (p : Path) : string :=
  match anchor p, parts p with
  | EmptyString, [] => "."
  | a, ps => a +:+ String.concat "/" ps
  end.

Definition repr (p : Path) : string :=
  "PosixPath(" +:+ quote +:+ fspath p +:+ quote +:+ ")".

(** [p.name]: the final component, if any. *)
Definition name (p : Path) : string := List.last (parts p) EmptyString.

Fixpoint rfind (c : ascii) (s : string) : option nat :=
  match s with
  | EmptyString => None
  | String a t =>
      match rfind c t with
      | Some i => Some (S i)
      | None => if Ascii.eqb a c then Some O else None
      end
  end.

Fixpoint take (n : nat) (s : string) : string :=
  match n, s with
  | S n', String c t => String c (take n' t)
  | _, _ => EmptyString
  end.

(** [name[i:]] for the last dot [i] of [name], unless the dot is the first
    or the last character. *)
Definition suffix_of (name : string) : string :=
  match rfind "." name with
  | Some i =>
      if ((0 <? i) && (i <? String.length name - 1))%nat then Json.drop i name
      else EmptyString
  | None => EmptyString
  end.

Definition suffix (p : Path) : string := suffix_of (name p).

(** [p.stem]: the final component without its suffix. *)
Definition stem (p : Path) : string :=
  take (String.length (name p) - String.length (suffix p)) (name p).

Fixpoint contains (c : ascii) (s : string) : bool :=
  match s with
  | EmptyString => false
  | String a t => Ascii.eqb a c || contains c t
  end.

(** [p.with_suffix(suffix)]. *)
Definition with_suffix (p : Path) (sfx : string) : res Path :=
  if contains "/" sfx then
    raise ValueError ("Invalid suffix " +:+ quote +:+ sfx +:+ quote)
  else if (negb (String.eqb sfx EmptyString) && negb (String.prefix "." sfx))
          || String.eqb sfx "." then
    raise ValueError ("Invalid suffix " +:+ quote +:+ sfx +:+ quote)
  else if String.eqb (name p) EmptyString then
    raise ValueError (repr p +:+ " has an empty name")
  else
    inr (mkPath (anchor p) (List.removelast (parts p) ++ [stem p +:+ sfx])).

(** [p.parent]. *)
Definition parent (p : Path) : Path := mkPath (anchor p) (List.removelast (parts p)).

End Pathlib.

(** ** The operating system: files, handles, locks and the log *)

Module Os.
Import Py Pathlib.

Inductive level := INFO | WARNING.

(** A call of a logger method: the method and the payload handed to
    [json.dumps]. Whether the record reaches standard output depends on
    [LOG_LEVEL]; the model keeps the call. *)
Definition record : Type := level * list (string * value).

(** A file object open for writing: the path it was opened on (it stands
    for the file at that path) and the text written to it that has not
    reached the file yet. *)
Record file_object := File { file_path : string; buffer : string }.

(** The state shared by every process and thread of the service.
    - [files]: the bytes of each regular file a process can reach, by path;
    - [handles]: the file objects open for writing;
    - [flocks]: the files under an exclusive [flock] and the handle that
      holds it;
    - [refused]: the paths at which the operating system answers with an
      error other than "no such file" when there is no file to reach (a
      directory above them that may not be searched, an input/output
      error), and the exception Python makes of it;
    - [log]: the logger calls so far, oldest first. *)
Record world := World {
  files : gmap string string;
  handles : gmap nat file_object;
  flocks : gmap string nat;
  refused : gmap string exn;
  log : list record
}.

(** Who runs a piece of code: [os.getpid()], [threading.get_ident()], and
    the arrays and objects the JSON scanner may enter, beyond a first one,
    before the recursion limit of the interpreter stops it. *)
Record caller := Caller { pid : Z; tid : Z; spare : nat }.

Definition room (c : caller) : nat := S (spare c).

Inductive flock_op := LOCK_EX | LOCK_UN.

(** The atomic actions of the code on the world, indexed by what they return. *)
Inductive action : Type -> Type :=
| Exists (p : Path) : action bool             (* [p.exists()] *)
| ReadBytes (p : Path) : action string        (* [p.open("r")]: the bytes it will read *)
| Mkdir (p : Path) : action unit              (* [p.mkdir(parents=True, exist_ok=True)] *)
| OpenW (p : Path) : action nat               (* [p.open("w")] *)
| Write (h : nat) (s : string) : action unit  (* [h.write(s)] *)
| Close (h : nat) : action unit               (* [h.close()] *)
| Replace (src dst : Path) : action unit      (* [src.replace(dst)] *)
| Flock (h : nat) (op : flock_op) : action unit
| Getpid : action Z
| GetIdent : action Z
| Room : action nat                           (* the stack left to [json.load] *)
| Log (lvl : level) (payload : list (string * value)) : action unit.

Definition closed_file {A} : res A := raise ValueError "I/O operation on closed file".

Definition set_files (w : world) (f : gmap string string) : world :=
  World f (handles w) (flocks w) (refused w) (log w).

(** [NAME_MAX] and [PATH_MAX] of Linux, in bytes. *)
Definition name_max : nat := 255.
Definition path_max : nat := 4096.

Definition too_long (p : string) : bool :=
  (path_max <=? String.length p)%nat
  || existsb (fun x => (name_max <? String.length x)%nat) (split_sep p).

(** The error of the operating system for a path at which there is no file
    to reach, when it is not "no such file". *)
Definition refusal (w : world) (p : string) : option exn :=
  if too_long p then
    Some (Exn OSError ("[Errno 36] File name too long: " +:+ quote +:+ p +:+ quote))
  else refused w !! p.

(** The files after [h.close()] has written the buffer of [h]: its bytes
    go over the first bytes of the file, which [open("w")] had emptied. *)
Definition flushed (h : nat) (w : world) : gmap string string :=
  match handles w !! h with
  | Some (File f (String c b)) =>
      match files w !! f with
      | Some cur =>
          <[f := String c b +:+ Json.drop (String.length (String c b)) cur]> (files w)
      | None => files w
      end
  | _ => files w
  end.

(** [exec c a w]: the answer of action [a] run by [c] in world [w] and the
    world after it, or [None] when the action has to wait ([LOCK_EX] on a
    file another handle has locked). [exists()] raises the errors of the
    operating system other than "no such file". Opening for writing creates
    or empties the file; what is written stays in the buffer of the file
    object until it is closed; closing a handle gives up its lock; a file
    that replaces another takes its name and leaves its own. *)
Definition exec (c : caller) {R} (a : action R) (w : world) : option (res R * world) :=
  match a in action R return option (res R * world) with
  | Exists p =>
      match files w !! fspath p with
      | Some _ => Some (inr true, w)
      | None =>
          match refusal w (fspath p) with
          | Some e => Some (inl e, w)
          | None => Some (inr false, w)
          end
      end
  | ReadBytes p =>
      match files w !! fspath p with
      | Some raw => Some (inr raw, w)
      | None =>
          match refusal w (fspath p) with
          | Some e => Some (inl e, w)
          | None => Some (raise FileNotFoundError
                            ("[Errno 2] No such file or directory: "
                             +:+ quote +:+ fspath p +:+ quote), w)
          end
      end
  | Mkdir p => Some (inr tt, w)
  | OpenW p =>
      let h := fresh (dom (handles w)) in
      Some (inr h, World (<[fspath p := EmptyString]> (files w))
                         (<[h := File (fspath p) EmptyString]> (handles w))
                         (flocks w) (refused w) (log w))
  | Write h s =>
      match handles w !! h with
      | Some f =>
          Some (inr tt, World (files w)
                              (<[h := File (file_path f) (buffer f +:+ s)]> (handles w))
                              (flocks w) (refused w) (log w))
      | None => Some (closed_file, w)
      end
  | Close h =>
      Some (inr tt, World (flushed h w) (delete h (handles w))
                          (filter (fun kv => kv.2 ≠ h) (flocks w)) (refused w) (log w))
  | Replace src dst =>
      match files w !! fspath src with
      | Some raw => Some (inr tt, set_files w (<[fspath dst := raw]>
                                                  (delete (fspath src) (files w))))
      | None =>
          match refusal w (fspath src) with
          | Some e => Some (inl e, w)
          | None => Some (raise FileNotFoundError
                            ("[Errno 2] No such file or directory: "
                             +:+ quote +:+ fspath src +:+ quote +:+ " -> "
                             +:+ quote +:+ fspath dst +:+ quote), w)
          end
      end
  | Flock h LOCK_EX =>
      match handles w !! h with
      | Some f =>
          match flocks w !! file_path f with
          | Some h' => if decide (h' = h) then Some (inr tt, w) else None
          | None =>
              Some (inr tt, World (files w) (handles w) (<[file_path f := h]> (flocks w))
                                  (refused w) (log w))
          end
      | None => Some (closed_file, w)
      end
  | Flock h LOCK_UN =>
      match handles w !! h with
      | Some f =>
          Some (inr tt, World (files w) (handles w)
                              (filter (fun kv => kv.2 ≠ h) (flocks w)) (refused w) (log w))
      | None => Some (closed_file, w)
      end
  | Getpid => Some (inr (pid c), w)
  | GetIdent => Some (inr (tid c), w)
  | Room => Some (inr (room c), w)
  | Log lvl payload =>
      Some (inr tt, World (files w) (handles w) (flocks w) (refused w)
                          (log w ++ [(lvl, payload)]))
  end.

End Os.

(** ** Programs: trees of atomic actions *)

Module Prog.
Import Py Os.

(** A program returns, raises, or performs an action and goes on with its
    answer, which is a value or the exception the action raised. *)
Inductive prog (A : Type) : Type :=
| Ret (a : A)
| Throw (e : exn)
| Act {R : Type} (a : action R) (k : res R -> prog A).
Arguments Ret {A}. Arguments Throw {A}. Arguments Act {A R}.

Definition lift {A} (r : res A) : prog A :=
  match r with inl e => Throw e | inr a => Ret a end.

Definition act {R} (a : action R) : prog R := Act a lift.

Fixpoint bind {A B} (p : prog A) (f : A -> prog B) : prog B :=
  match p with
  | Ret a => f a
  | Throw e => Throw e
  | Act a k => Act a (fun r => bind (k r) f)
  end.

(** [try: p  except Exception as e: h e]. *)
Fixpoint try_except {A} (p : prog A) (h : exn -> prog A) : prog A :=
  match p with
  | Ret a => Ret a
  | Throw e => h e
  | Act a k => Act a (fun r => try_except (k r) h)
  end.

(** [try: p  finally: fin]. The result of [p] comes back after [fin]
    unless [fin] raises. *)
Fixpoint try_finally {A} (p : prog A) (fin : prog unit) : prog A :=
  match p with
  | Ret a => bind fin (fun _ => Ret a)
  | Throw e => bind fin (fun _ => Throw e)
  | Act a k => Act a (fun r => try_finally (k r) fin)
  end.

Declare Scope prog_scope.
Delimit Scope prog_scope with prog.
Notation "x <- p ;; q" := (bind p (fun x => q))
  (at level 100, p at next level, right associativity) : prog_scope.
Notation "p ;; q" := (bind p (fun _ => q))
  (at level 100, right associativity) : prog_scope.

(** How a call ends when it runs alone. *)
Inductive outcome (A : Type) :=
| Returned (a : A)
| Raised (e : exn)
| Blocked.
Arguments Returned {A}. Arguments Raised {A}. Arguments Blocked {A}.

(** [run c p w]: [p] run by [c] from [w] with nothing else running. *)
Fixpoint run (c : caller) {A} (p : prog A) (w : world) : outcome A * world :=
  match p with
  | Ret a => (Returned a, w)
  | Throw e => (Raised e, w)
  | Act a k =>
      match exec c a w with
      | Some (r, w') => run c (k r) w'
      | None => (Blocked, w)
      end
  end.

End Prog.

(** ** [counter_service.py] *)

Module CounterService.
Import Py Pathlib Os Prog.
Open Scope prog_scope.

Section Service.

(** The environment of the process when the module is imported. *)
Variable environ : gmap string string.

Definition getenv (key default : string) : string :=
  match environ !! key with Some v => v | None => default end.

Definition COUNTER_FILE : string := getenv "COUNTER_FILE" "/data/counter.json".
Definition APP_VERSION : string := getenv "APP_VERSION" "dev".

(** [json.dumps] sees the payload with [pid] and [tid] in place of fields
    of these names. *)
Definition log_json (level_func : level) (payload : list (string * value)) : prog unit :=
  pid <- act Getpid ;;
  tid <- act GetIdent ;;
  let theirs :=
    List.filter (fun kv : string * value =>
                   negb (String.eqb kv.1 "pid") && negb (String.eqb kv.1 "tid")) payload in
  lift (Json.dumps_check (PDict theirs)) ;;
  let payload := (payload ++ [("pid", PInt pid); ("tid", PInt tid)])%list in
  act (Log level_func payload).

Definition _read_counter (path : Path) : prog Z :=
  found <- act (Exists path) ;;
  if negb found then Ret 0
  else
    try_except
      (raw <- act (ReadBytes path) ;;
       room <- act Room ;;
       data <- lift (Json.load room raw) ;;
       counter <- lift (get data "counter" (PInt 0)) ;;
       lift (int counter))
      (fun e =>
         log_json WARNING [("event", PStr "read_failed");
                           ("path", PStr (fspath path));
                           ("error", PStr (exn_str e))] ;;
         Ret 0).

(** [for chunk in chunks: file.write(chunk)], the loop of [json.dump]: the
    encoder makes a chunk, or raises, when the loop asks for it. *)
Fixpoint write_chunks (file : nat) (chunks : list (res string)) : prog unit :=
  match chunks with
  | [] => Ret tt
  | chunk :: rest =>
      chunk <- lift chunk ;;
      act (Write file chunk) ;;
      write_chunks file rest
  end.

Definition _write_counter (path : Path) (value : Z) : prog unit :=
  act (Mkdir (parent path)) ;;
  tmp_path <- lift (with_suffix path ".tmp") ;;
  file <- act (OpenW tmp_path) ;;
  try_finally (write_chunks file (Json.dump_counter value)) (act (Close file)) ;;
  act (Replace tmp_path path).

(** [with _exclusive_file_lock(target_path): body]. The generator runs to
    its [yield], [body] runs in its place, and the [finally] blocks run
    whether [body] returned or raised. *)
Definition _exclusive_file_lock {A} (target_path : Path) (body : prog A) : prog A :=
  lock_path <- lift (with_suffix target_path ".lock") ;;
  act (Mkdir (parent lock_path)) ;;
  lock_f <- act (OpenW lock_path) ;;
  try_finally
    (act (Flock lock_f LOCK_EX) ;; body)
    (try_finally (act (Flock lock_f LOCK_UN)) (act (Close lock_f))).

(** A response of a view: the JSON body and the status. *)
Definition response : Type := list (string * value) * Z.

Definition healthz : prog response := Ret ([("status", PStr "ok")], 200).

Definition version : prog response := Ret ([("version", PStr APP_VERSION)], 200).

(** The view of [/]; [method] is [request.method]. *)
Definition index (method : string) : prog response :=
  let path := Path_of COUNTER_FILE in
  if String.eqb method "POST" then
    current <- _exclusive_file_lock path
                 (current <- _read_counter path ;;
                  let current := current + 1 in
                  _write_counter path current ;;
                  Ret current) ;;
    log_json INFO [("event", PStr "increment"); ("counter", PInt current)] ;;
    Ret ([("counter", PInt current)], 200)
  else
    current <- _read_counter path ;;
    Ret ([("counter", PInt current)], 200).

End Service.

End CounterService.

(** ** Vocabulary of the statements *)

Module Spec.
Import Py Pathlib Os Prog CounterService.

(** What the [try] block of [_read_counter] makes of the bytes of the file
    when the scanner has room for [room] nested arrays and objects. *)
Definition counter_of_bytes (room : nat) (raw : string) : res Z :=
  res_bind (Json.load room raw) (fun data =>
  res_bind (get data "counter" (PInt 0)) int).

(** The record [_read_counter] logs when it absorbs [e]. *)
Definition read_failed (c : caller) (path : Path) (e : exn) : record :=
  (WARNING, [("event", PStr "read_failed"); ("path", PStr (fspath path));
             ("error", PStr (exn_str e));
             ("pid", PInt (pid c)); ("tid", PInt (tid c))]).

(** The record [index] logs after an increment. *)
Definition incremented (c : caller) (current : Z) : record :=
  (INFO, [("event", PStr "increment"); ("counter", PInt current);
          ("pid", PInt (pid c)); ("tid", PInt (tid c))]).

Definition logged (w : world) (r : record) : world :=
  World (files w) (handles w) (flocks w) (refused w) (log w ++ [r]).

(** The counter a reader finds in the files [fs] when its stack has room
    for every array and object of the document. *)
Definition stored (fs : gmap string string) (path : Path) : Z :=
  match fs !! fspath path with
  | Some raw =>
      match counter_of_bytes (String.length raw) raw with inr z => z | inl _ => 0 end
  | None => 0
  end.

(** A warning with [event = read_failed] about [path] is in the log. *)
Definition warned (path : Path) (l : list record) : Prop :=
  exists payload,
    (WARNING, payload) ∈ l
    /\ dict_lookup "event" payload = Some (PStr "read_failed")
    /\ dict_lookup "path" payload = Some (PStr (fspath path))
    /\ exists detail, dict_lookup "error" payload = Some (PStr detail).

(** The world [_write_counter path value] leaves behind, [tmp_path] being
    its temporary file. *)
Definition written (w : world) (path tmp_path : Path) (value : Z) : world :=
  let h := fresh (dom (handles w)) in
  World (<[fspath path := Json.counter_text value]>
           (delete (fspath tmp_path)
              (<[fspath tmp_path := Json.counter_text value]> (files w))))
        (delete h (handles w))
        (filter (fun kv => kv.2 ≠ h) (flocks w))
        (refused w) (log w).

(** The world [_write_counter] leaves behind when [json.dump] raises at the
    number: the temporary file holds the start of the document. *)
Definition aborted (w : world) (tmp_path : Path) : world :=
  let h := fresh (dom (handles w)) in
  World (<[fspath tmp_path := Json.counter_prefix]> (files w))
        (delete h (handles w))
        (filter (fun kv => kv.2 ≠ h) (flocks w))
        (refused w) (log w).

(** The handle the next [open("w")] returns. *)
Definition next_handle (w : world) : nat := fresh (dom (handles w)).

(** The world after [lock_path.open("w")]. *)
Definition opened (w : world) (lock_path : Path) : world :=
  World (<[fspath lock_path := EmptyString]> (files w))
        (<[next_handle w := File (fspath lock_path) EmptyString]> (handles w))
        (flocks w) (refused w) (log w).

(** The world once [flock(lock_f, LOCK_EX)] has returned, if it can. *)
Definition acquired (w : world) (lock_path : Path) : option world :=
  match flocks w !! fspath lock_path with
  | None =>
      Some (World (files (opened w lock_path)) (handles (opened w lock_path))
                  (<[fspath lock_path := next_handle w]> (flocks w)) (refused w) (log w))
  | Some h' => if decide (h' = next_handle w) then Some (opened w lock_path) else None
  end.

(** The world after handle [h] gave up its lock and was closed. *)
Definition released (h : nat) (w : world) : world :=
  World (flushed h w) (delete h (handles w)) (filter (fun kv => kv.2 ≠ h) (flocks w))
        (refused w) (log w).

(** The worlds a call goes through when it runs alone, one per action. *)
Fixpoint worlds (c : caller) {A} (p : prog A) (w : world) : list world :=
  match p with
  | Act a k =>
      match exec c a w with
      | Some (r, w') => w' :: worlds c (k r) w'
      | None => []
      end
  | _ => []
  end.

(** What an action on a closed file object raises. *)
Definition closed_exn : exn := Exn ValueError "I/O operation on closed file".

(** *** Sample data *)

Definition w_empty : world := World ∅ ∅ ∅ ∅ [].
Definition me : caller := Caller 4242 1 900.
Definition counter_json : Path := Path_of "/data/counter.json".

(** The document [{"counter": v}] for the text [v] of a JSON value. *)
Definition counter_file (v : string) : string := Json.counter_prefix +:+ v +:+ "}".

(** Counter files whose suffix is the one of the lock file, or of the
    temporary file. *)
Definition counter_lock : Path := Path_of "/data/counter.lock".
Definition counter_tmp : Path := Path_of "/data/counter.tmp".
Definition environ_lock : gmap string string := {[ "COUNTER_FILE" := "/data/counter.lock" ]}.

(** A world whose only file is the counter file, with the bytes [raw]. *)
Definition w_with (path : Path) (raw : string) : world :=
  World {[ fspath path := raw ]} ∅ ∅ ∅ [].



(** The JSON string of the fullwidth digits four and two (U+FF14, U+FF12),
    in UTF-8. *)
Definition fullwidth_42 : string :=
  String Json.dq
    (String "239" (String "188" (String "148"
    (String "239" (String "188" (String "146" (String Json.dq EmptyString))))))).

(** A caller whose stack has room for one array or object, not for two. *)
Definition shallow : caller := Caller 4242 2 0.

End Spec.

(** ** Numbers and documents *)

Module JsonFacts.
Import Py Json.

Lemma append_cons c s r : String c s +:+ r = String c (s +:+ r).
Proof. reflexivity. Qed.

Lemma append_nil r : EmptyString +:+ r = r.
Proof. reflexivity. Qed.

Lemma append_nil_r s : s +:+ EmptyString = s.
Proof. induction s as [|c s IH]; [done|]. by rewrite append_cons, IH. Qed.

Lemma append_assoc_str (a b c : string) : (a +:+ b) +:+ c = a +:+ (b +:+ c).
Proof. induction a as [|x a IH]; [done|]. by rewrite !append_cons, IH. Qed.

Ltac str_norm :=
  repeat first [rewrite append_assoc_str | rewrite append_cons | rewrite append_nil].

Lemma all_digits_uint d : all_digits (NilEmpty.string_of_uint d) = true.
Proof. induction d; simpl; auto. Qed.

Lemma length_string_of_uint d :
  String.length (NilEmpty.string_of_uint d) = Decimal.nb_digits d.
Proof. induction d; simpl; auto. Qed.

Lemma digit_not_space c : is_digit c = true -> is_space c = false.
Proof.
  destruct c as [[] [] [] [] [] [] [] []]; vm_compute; congruence.
Qed.

Lemma digit_ascii c : is_digit c = true -> (N_of_ascii c <? 128)%N = true.
Proof.
  destruct c as [[] [] [] [] [] [] [] []]; vm_compute; congruence.
Qed.

Lemma digit_not_sign c :
  is_digit c = true -> Ascii.eqb c "-" = false /\ Ascii.eqb c "+" = false.
Proof.
  destruct c as [[] [] [] [] [] [] [] []]; vm_compute; split; congruence.
Qed.

Lemma lstrip_digits s : all_digits s = true -> lstrip s = s.
Proof.
  destruct s as [|c t]; simpl; [done|].
  intros [Hc _]%andb_prop. by rewrite (digit_not_space _ Hc).
Qed.

(** Digits are ASCII: [int()] reads them as they are. *)
Lemma transform_digits s r :
  all_digits s = true -> transform (s +:+ r) 0 0 = s +:+ transform r 0 0.
Proof.
  induction s as [|c t IH]; [done|]. simpl. intros [Hc Ht]%andb_prop.
  rewrite append_cons. simpl. rewrite (digit_ascii _ Hc). by rewrite (IH Ht).
Qed.

Lemma span_run_digits s : all_digits s = true -> span_run s = (s, EmptyString).
Proof.
  induction s as [|c t IH]; [done|]. simpl. intros [Hc Ht]%andb_prop.
  by rewrite Hc, (IH Ht).
Qed.

Lemma digits_sep_digits s prev :
  all_digits s = true -> s <> EmptyString \/ prev = true -> digits_sep s prev = Some s.
Proof.
  revert prev. induction s as [|c t IH]; simpl; intros prev Hs Hne.
  - destruct Hne as [?| ->]; done.
  - apply andb_prop in Hs as [Hc Ht]. rewrite Hc.
    rewrite (IH true Ht) by auto. done.
Qed.

(** The text of at most 4300 digits is read as the number it writes. *)
Lemma int_of_digits_digits orig neg s :
  all_digits s = true -> s <> EmptyString ->
  (String.length s <= max_str_digits)%nat ->
  int_of_digits orig neg s = inr (if neg then - digits_value s else digits_value s).
Proof.
  intros Hs Hne Hlen. unfold int_of_digits.
  rewrite (span_run_digits _ Hs), digits_sep_digits by auto.
  destruct (Nat.ltb_spec max_str_digits (String.length s)); [lia|done].
Qed.

Lemma int_of_str_digits s :
  all_digits s = true -> s <> EmptyString ->
  (String.length s <= max_str_digits)%nat ->
  int_of_str s = inr (digits_value s).
Proof.
  intros Hs Hne Hlen. unfold int_of_str.
  rewrite <- (append_nil_r s) at 1. rewrite (transform_digits _ _ Hs).
  simpl transform. rewrite append_nil_r, (lstrip_digits _ Hs).
  pose proof (int_of_digits_digits s false s Hs Hne Hlen) as H.
  destruct s as [|c t]; [done|].
  simpl in Hs. apply andb_prop in Hs as [Hc _].
  destruct c as [[] [] [] [] [] [] [] []]; try discriminate Hc; exact H.
Qed.

Lemma int_of_str_minus s :
  all_digits s = true -> s <> EmptyString ->
  (String.length s <= max_str_digits)%nat ->
  int_of_str (String "-" s) = inr (- digits_value s).
Proof.
  intros Hs Hne Hlen. unfold int_of_str.
  change (transform (String "-" s) 0 0) with (String "-" (transform s 0 0)).
  rewrite <- (append_nil_r s) at 1. rewrite (transform_digits _ _ Hs).
  simpl transform. rewrite append_nil_r.
  change (lstrip (String "-" s)) with (String "-" s).
  apply (int_of_digits_digits _ true s Hs Hne Hlen).
Qed.

(** *** The digits of a number *)

Lemma digits_value_uint d : digits_value (NilEmpty.string_of_uint d) = Z.of_uint d.
Proof. unfold digits_value. by rewrite NilEmpty.usu. Qed.

Lemma of_uint_to_uint p : Z.of_uint (Pos.to_uint p) = Z.pos p.
Proof. unfold Z.of_uint. by rewrite DecimalPos.Unsigned.of_to. Qed.

(** [Pos.to_uint] writes no leading zero. *)
Lemma to_uint_head p d : Pos.to_uint p <> Decimal.D0 d.
Proof.
  intros E.
  pose proof (DecimalPos.Unsigned.to_of (Pos.to_uint p)) as H.
  rewrite DecimalPos.Unsigned.of_to in H. simpl in H.
  rewrite E in H. rewrite DecimalFacts.unorm_D0 in H.
  assert (d = Decimal.Nil \/ d <> Decimal.Nil) as [->|Hd] by (destruct d; auto).
  - apply (DecimalPos.Unsigned.to_uint_nonzero p). by rewrite E.
  - pose proof (DecimalFacts.nb_digits_unorm d Hd) as Hle.
    rewrite <- H in Hle. simpl in Hle. lia.
Qed.

Lemma usize_nb_digits d : DecimalPos.Unsigned.usize d = N.of_nat (Decimal.nb_digits d).
Proof. induction d; simpl; rewrite ?IHd; lia. Qed.

(** Text that starts with a digit other than zero writes a number of at
    least ten to the number of the digits that follow. *)
Lemma of_uint_acc_ge l acc :
  (10 ^ N.of_nat (Decimal.nb_digits l) <= N.pos (Pos.of_uint_acc l acc))%N.
Proof.
  rewrite DecimalPos.Unsigned.of_uint_acc_rev, usize_nb_digits.
  assert (1 <= N.pos acc)%N by lia.
  assert (10 ^ N.of_nat (Decimal.nb_digits l) <> 0)%N by (apply N.pow_nonzero; lia).
  nia.
Qed.

(** A number below ten to the [n] has at most [n] digits. *)
Lemma digits_bound p n :
  0 <= n -> Z.pos p < 10 ^ n -> (Z.of_nat (Decimal.nb_digits (Pos.to_uint p)) <= n).
Proof.
  intros Hn Hlt.
  pose proof (DecimalPos.Unsigned.of_to p) as Hof.
  pose proof (to_uint_head p) as Hh.
  pose proof (DecimalPos.Unsigned.to_uint_nonnil p) as Hnil.
  destruct (Pos.to_uint p) as [|l|l|l|l|l|l|l|l|l|l]; [done|by destruct (Hh l)|..];
    simpl in Hof; simpl Decimal.nb_digits;
    (match type of Hof with N.pos (Pos.of_uint_acc l ?a) = _ =>
       pose proof (of_uint_acc_ge l a) as Hge end);
    rewrite Hof in Hge;
    (assert (10 ^ Z.of_nat (Decimal.nb_digits l) < 10 ^ n) as Hpow
       by (apply (Z.le_lt_trans _ (Z.pos p)); [|done];
           rewrite <- (N2Z.inj_pos p); change 10 with (Z.of_N 10);
           rewrite <- nat_N_Z, <- N2Z.inj_pow; by apply N2Z.inj_le));
    apply Z.pow_lt_mono_r_iff in Hpow; lia.
Qed.

Lemma decimal_pos p : decimal (Z.pos p) = NilEmpty.string_of_uint (Pos.to_uint p).
Proof.
  unfold decimal. simpl. unfold NilZero.string_of_uint.
  pose proof (DecimalPos.Unsigned.to_uint_nonnil p). by destruct (Pos.to_uint p).
Qed.

Lemma decimal_neg p :
  decimal (Z.neg p) = String "-" (NilEmpty.string_of_uint (Pos.to_uint p)).
Proof.
  unfold decimal. simpl. unfold NilZero.string_of_uint.
  pose proof (DecimalPos.Unsigned.to_uint_nonnil p). by destruct (Pos.to_uint p).
Qed.

Lemma all_digits_decimal_pos p : all_digits (decimal (Z.pos p)) = true.
Proof. rewrite decimal_pos. apply all_digits_uint. Qed.

Lemma decimal_pos_nonempty p : decimal (Z.pos p) <> EmptyString.
Proof.
  rewrite decimal_pos. pose proof (DecimalPos.Unsigned.to_uint_nonnil p).
  by destruct (Pos.to_uint p).
Qed.

Lemma length_decimal_pos p :
  Z.pos p < 10 ^ Z.of_nat max_str_digits ->
  (String.length (decimal (Z.pos p)) <= max_str_digits)%nat.
Proof.
  intros Hlt. rewrite decimal_pos, length_string_of_uint.
  pose proof (digits_bound p (Z.of_nat max_str_digits) ltac:(lia) Hlt). lia.
Qed.

Lemma digits_value_decimal_pos p : digits_value (decimal (Z.pos p)) = Z.pos p.
Proof. by rewrite decimal_pos, digits_value_uint, of_uint_to_uint. Qed.

(** [int()] reads the digits of a number of at most 4300 digits back. *)
Lemma int_of_str_decimal z :
  Z.abs z < 10 ^ Z.of_nat max_str_digits -> int_of_str (decimal z) = inr z.
Proof.
  intros Hz. destruct z as [|p|p]; [reflexivity| |].
  - rewrite int_of_str_digits.
    + by rewrite digits_value_decimal_pos.
    + apply all_digits_decimal_pos.
    + apply decimal_pos_nonempty.
    + by apply length_decimal_pos.
  - rewrite decimal_neg, <- decimal_pos. rewrite int_of_str_minus.
    + by rewrite digits_value_decimal_pos.
    + apply all_digits_decimal_pos.
    + apply decimal_pos_nonempty.
    + by apply length_decimal_pos.
Qed.

(** [repr] gives the digits of the numbers of at most 4300 digits and
    raises for the others. *)
Lemma repr_int_inr z s :
  repr_int z = inr s <-> Z.abs z < 10 ^ Z.of_nat max_str_digits /\ s = decimal z.
Proof.
  unfold repr_int. destruct (Z.leb_spec (10 ^ Z.of_nat max_str_digits) (Z.abs z)).
  - split; [done|]. intros [? _]. lia.
  - split; [by intros [= <-]|]. by intros [_ ->].
Qed.

Lemma repr_int_small z :
  Z.abs z < 10 ^ Z.of_nat max_str_digits -> repr_int z = inr (decimal z).
Proof. intros. by apply repr_int_inr. Qed.

Lemma span_digits_app s c r :
  all_digits s = true -> is_digit c = false ->
  span_digits (s +:+ String c r) = (s, String c r).
Proof.
  intros Hs Hc. induction s as [|a t IH]; simpl.
  - by rewrite Hc.
  - simpl in Hs. apply andb_prop in Hs as [Ha Ht]. by rewrite Ha, (IH Ht).
Qed.

(** A number is read back from its digits when a closing brace follows. *)
Lemma match_number_decimal z rest :
  Z.abs z < 10 ^ Z.of_nat max_str_digits ->
  match_number (decimal z +:+ String "}" rest)
  = Some (inr (PInt z), String "}" rest, String.length (decimal z)).
Proof.
  intros Hz.
  assert (forall p,
    match_integer (NilEmpty.string_of_uint (Pos.to_uint p) +:+ String "}" rest)
    = Some (NilEmpty.string_of_uint (Pos.to_uint p), String "}" rest)) as Hint.
  { intros p. pose proof (to_uint_head p) as Hh.
    pose proof (DecimalPos.Unsigned.to_uint_nonnil p) as Hn.
    destruct (Pos.to_uint p) as [|d|d|d|d|d|d|d|d|d|d]; try done;
      [by destruct (Hh d)|..];
      unfold match_integer; simpl;
      by rewrite span_digits_app by (apply all_digits_uint || done). }
  destruct z as [|p|p]; [reflexivity| |].
  - pose proof (int_of_str_decimal (Z.pos p) Hz) as Hpos.
    rewrite decimal_pos in *. specialize (Hint p).
    pose proof (all_digits_uint (Pos.to_uint p)) as Hall.
    destruct (NilEmpty.string_of_uint (Pos.to_uint p)) as [|c t]; [done|].
    simpl in Hall. apply andb_prop in Hall as [Hc _].
    unfold match_number. rewrite append_cons in *.
    destruct c as [[] [] [] [] [] [] [] []]; try discriminate Hc;
      cbv beta iota; rewrite Hint; simpl; rewrite append_nil, Hpos; simpl; do 2 f_equal; lia.
  - pose proof (int_of_str_decimal (Z.neg p) Hz) as Hneg.
    rewrite decimal_neg in *. unfold match_number. rewrite append_cons.
    cbv beta iota. rewrite Hint. simpl. rewrite append_cons, append_nil.
    rewrite Hneg. simpl. do 2 f_equal. lia.
Qed.

Lemma scan_once_number fuel room c t pos :
  number_start c = true ->
  scan_once (S fuel) room (String c t) pos = scan_number (String c t) pos.
Proof.
  intros Hc.
  destruct c as [[] [] [] [] [] [] [] []]; try discriminate Hc; reflexivity.
Qed.

Lemma decimal_head z :
  exists c t, decimal z = String c t /\ number_start c = true.
Proof.
  destruct z as [|p|p].
  - by exists "0"%char, EmptyString.
  - rewrite decimal_pos. pose proof (all_digits_uint (Pos.to_uint p)) as Hall.
    pose proof (DecimalPos.Unsigned.to_uint_nonnil p) as Hn.
    destruct (Pos.to_uint p); try done; simpl; do 2 eexists; split; try done.
  - rewrite decimal_neg. by do 2 eexists.
Qed.

Lemma utf8_valid_digits s r :
  all_digits s = true -> utf8_valid (s +:+ r) [] = utf8_valid r [].
Proof.
  induction s as [|c t IH]; [done|]. simpl. intros [Hc Ht]%andb_prop.
  rewrite ?append_cons. simpl. rewrite <- (IH Ht).
  destruct c as [[] [] [] [] [] [] [] []]; try discriminate Hc; reflexivity.
Qed.

Lemma universal_newlines_digits s r :
  all_digits s = true -> universal_newlines (s +:+ r) = s +:+ universal_newlines r.
Proof.
  induction s as [|c t IH]; [done|]. simpl. intros [Hc Ht]%andb_prop.
  rewrite ?append_cons. simpl. rewrite (IH Ht).
  destruct c as [[] [] [] [] [] [] [] []]; try discriminate Hc; reflexivity.
Qed.

Lemma all_digits_ascii s r :
  all_digits s = true ->
  utf8_valid (s +:+ r) [] = utf8_valid r []
  /\ universal_newlines (s +:+ r) = s +:+ universal_newlines r.
Proof. intros. by rewrite utf8_valid_digits, universal_newlines_digits. Qed.

Lemma read_text_counter value : read_text (counter_text value) = inr (counter_text value).
Proof.
  unfold counter_text, read_text, counter_prefix.
  destruct value as [|p|p].
  - reflexivity.
  - destruct (all_digits_ascii (decimal (Z.pos p)) "}" (all_digits_decimal_pos p)) as [Hv Hn].
    revert Hv Hn. generalize (decimal (Z.pos p)). intros ds Hv Hn.
    str_norm. simpl. rewrite Hv. simpl. by rewrite Hn.
  - rewrite decimal_neg, <- decimal_pos.
    destruct (all_digits_ascii (decimal (Z.pos p)) "}" (all_digits_decimal_pos p)) as [Hv Hn].
    revert Hv Hn. generalize (decimal (Z.pos p)). intros ds Hv Hn.
    str_norm. simpl. rewrite Hv. simpl. by rewrite Hn.
Qed.

Lemma number_start_not_ws c : number_start c = true -> is_ws c = false.
Proof.
  destruct c as [[] [] [] [] [] [] [] []]; vm_compute; congruence.
Qed.

Lemma scan_counter fuel room value :
  Z.abs value < 10 ^ Z.of_nat max_str_digits ->
  scan_once (S (S (S fuel))) (S room) (counter_prefix +:+ decimal value +:+ "}") 0
  = Scanned (PDict [("counter", PInt value)]) EmptyString
            (13 + String.length (decimal value)).
Proof.
  intros Hz. unfold counter_prefix.
  destruct (decimal_head value) as (c & t & E & Hc).
  pose proof (match_number_decimal value EmptyString Hz) as Hm.
  rewrite E in *. rewrite append_cons in Hm. str_norm.
  remember (S fuel) as fuel' eqn:Hfuel. simpl. subst fuel'.
  rewrite (number_start_not_ws _ Hc).
  rewrite scan_once_number by done. unfold scan_number. rewrite Hm.
  reflexivity.
Qed.

Lemma loads_counter room value :
  Z.abs value < 10 ^ Z.of_nat max_str_digits ->
  loads (S room) (counter_text value) = inr (PDict [("counter", PInt value)]).
Proof.
  intros Hz. unfold counter_text, loads.
  assert (String.prefix (utf8 65279) (counter_prefix +:+ decimal value +:+ "}") = false)
    as -> by reflexivity.
  assert (skip_ws (counter_prefix +:+ decimal value +:+ "}") 0
          = (counter_prefix +:+ decimal value +:+ "}", 0%nat)) as -> by reflexivity.
  assert (exists fuel, S (2 * String.length (counter_prefix +:+ decimal value +:+ "}"))
                       = S (S (S fuel))) as [fuel ->].
  { unfold counter_prefix. str_norm. cbn [String.length]. eexists.
    rewrite Nat.mul_succ_r. rewrite Nat.add_comm. reflexivity. }
  rewrite scan_counter by done. reflexivity.
Qed.

(** The document [json.dump] wrote for a number is read back as that
    number by a scanner with room for one object. *)
Lemma load_counter room value :
  Z.abs value < 10 ^ Z.of_nat max_str_digits ->
  load (S room) (counter_text value) = inr (PDict [("counter", PInt value)]).
Proof. intros Hz. unfold load. rewrite read_text_counter. by apply loads_counter. Qed.

End JsonFacts.

(** ** Running programs *)

Module ProgFacts.
Import Py Os Prog.

Lemma run_bind c {A B} (p : prog A) (f : A -> prog B) w :
  run c (bind p f) w =
  match run c p w with
  | (Returned a, w1) => run c (f a) w1
  | (Raised e, w1) => (Raised e, w1)
  | (Blocked, w1) => (Blocked, w1)
  end.
Proof.
  revert w. induction p as [a|e|R a k IH]; intros w; simpl; try done.
  destruct (exec c a w) as [[r w']|]; [apply IH|done].
Qed.

Lemma run_try_except c {A} (p : prog A) (h : exn -> prog A) w :
  run c (try_except p h) w =
  match run c p w with
  | (Raised e, w1) => run c (h e) w1
  | other => other
  end.
Proof.
  revert w. induction p as [a|e|R a k IH]; intros w; simpl; try done.
  destruct (exec c a w) as [[r w']|]; [apply IH|done].
Qed.

Lemma run_try_finally c {A} (p : prog A) (fin : prog unit) w :
  run c (try_finally p fin) w =
  match run c p w with
  | (Returned a, w1) =>
      match run c fin w1 with
      | (Returned _, w2) => (Returned a, w2)
      | (Raised e, w2) => (Raised e, w2)
      | (Blocked, w2) => (Blocked, w2)
      end
  | (Raised e, w1) =>
      match run c fin w1 with
      | (Returned _, w2) => (Raised e, w2)
      | (Raised e', w2) => (Raised e', w2)
      | (Blocked, w2) => (Blocked, w2)
      end
  | (Blocked, w1) => (Blocked, w1)
  end.
Proof.
  revert w. induction p as [a|e|R a k IH]; intros w; simpl.
  - rewrite run_bind. by destruct (run c fin w) as [[]].
  - rewrite run_bind. by destruct (run c fin w) as [[]].
  - destruct (exec c a w) as [[r w']|]; [apply IH|done].
Qed.

Lemma run_lift c {A} (r : res A) w :
  run c (lift r) w = (match r with inl e => Raised e | inr a => Returned a end, w).
Proof. by destruct r. Qed.

Lemma run_act c {R} (a : action R) w :
  run c (act a) w =
  match exec c a w with
  | Some (inr v, w') => (Returned v, w')
  | Some (inl e, w') => (Raised e, w')
  | None => (Blocked, w)
  end.
Proof. simpl. by destruct (exec c a w) as [[[] ?]|]. Qed.

Lemma world_eta w : World (files w) (handles w) (flocks w) (refused w) (log w) = w.
Proof. by destruct w. Qed.

End ProgFacts.

(** ** The store: [_read_counter] and [_write_counter] *)

Module StoreFacts.
Import Py Pathlib Os Prog CounterService Spec ProgFacts.

(** [log_json] with a payload [json.dumps] can write. *)
Lemma run_log_json c level_func payload w :
  Json.dumps_check
    (PDict (List.filter (fun kv : string * value =>
                           negb (String.eqb kv.1 "pid") && negb (String.eqb kv.1 "tid"))
                        payload)) = inr tt ->
  run c (log_json level_func payload) w
  = (Returned tt,
     logged w (level_func, (payload ++ [("pid", PInt (pid c)); ("tid", PInt (tid c))])%list)).
Proof.
  intros Hd. unfold log_json. rewrite run_bind, run_act. simpl exec. cbv iota.
  rewrite run_bind, run_act. simpl exec. cbv iota.
  rewrite run_bind, run_lift, Hd. reflexivity.
Qed.

(** What [exists()] answers. *)
Lemma exists_found c path w raw :
  files w !! fspath path = Some raw -> exec c (Exists path) w = Some (inr true, w).
Proof. intros H. simpl. by rewrite H. Qed.

Lemma exists_answers c path w b :
  exec c (Exists path) w = Some (inr b, w) <->
  (if b then is_Some (files w !! fspath path)
   else files w !! fspath path = None /\ refusal w (fspath path) = None).
Proof.
  simpl. destruct (files w !! fspath path) as [raw|].
  - destruct b; split; try done; eauto. by intros [? ?].
  - destruct (refusal w (fspath path)) as [e|]; destruct b; split;
      try done; try (by intros [? ?]); try (by intros [[? ?] ?]).
Qed.

(** [_read_counter] on a path that exists. *)
Lemma read_found c path w raw :
  files w !! fspath path = Some raw ->
  run c (_read_counter path) w =
  match counter_of_bytes (room c) raw with
  | inr z => (Returned z, w)
  | inl e => (Returned 0, logged w (read_failed c path e))
  end.
Proof.
  intros Hraw. unfold _read_counter. rewrite run_bind, run_act.
  rewrite (exists_found _ _ _ _ Hraw). simpl negb. cbv iota.
  rewrite run_try_except, run_bind, run_act. simpl exec. rewrite Hraw.
  rewrite run_bind, run_act. simpl exec. cbv iota.
  unfold counter_of_bytes.
  rewrite run_bind, run_lift.
  destruct (Json.load (room c) raw) as [e|data]; simpl res_bind.
  { rewrite run_bind, run_log_json by done. reflexivity. }
  rewrite run_bind, run_lift.
  destruct (get data "counter" (PInt 0)) as [e|counter]; simpl res_bind.
  { rewrite run_bind, run_log_json by done. reflexivity. }
  rewrite run_lift.
  destruct (int counter) as [e|z].
  { rewrite run_bind, run_log_json by done. reflexivity. }
  reflexivity.
Qed.

(** [_read_counter] on a path at which there is no file. *)
Lemma read_absent c path w :
  files w !! fspath path = None ->
  run c (_read_counter path) w =
  match refusal w (fspath path) with
  | Some e => (Raised e, w)
  | None => (Returned 0, w)
  end.
Proof.
  intros Hnone. unfold _read_counter. rewrite run_bind, run_act. simpl exec.
  rewrite Hnone. by destruct (refusal w (fspath path)).
Qed.

Lemma counter_of_counter_text room value :
  Z.abs value < 10 ^ Z.of_nat max_str_digits ->
  counter_of_bytes (S room) (Json.counter_text value) = inr value.
Proof. intros Hz. unfold counter_of_bytes. by rewrite JsonFacts.load_counter. Qed.

Lemma drop_empty n : Json.drop n EmptyString = EmptyString.
Proof. by destruct n. Qed.

(** [json.dump] fills the buffer of the file object: with the whole
    document, or with its start when the number cannot be written. *)
Lemma run_dump c h f value w :
  handles w !! h = Some (File f EmptyString) ->
  run c (write_chunks h (Json.dump_counter value)) w
  = match repr_int value with
    | inr s =>
        (Returned tt,
         World (files w)
               (<[h := File f (Json.counter_prefix +:+ s +:+ "}")]> (handles w))
               (flocks w) (refused w) (log w))
    | inl e =>
        (Raised e,
         World (files w) (<[h := File f Json.counter_prefix]> (handles w))
               (flocks w) (refused w) (log w))
    end.
Proof.
  intros Hh. unfold Json.dump_counter, write_chunks.
  repeat (rewrite run_bind, run_lift; cbv iota;
          rewrite run_bind, run_act; simpl exec; rewrite ?Hh, ?lookup_insert_eq;
          cbv iota; simpl handles; simpl file_path; simpl buffer;
          rewrite ?insert_insert_eq).
  rewrite run_bind, run_lift.
  destruct (repr_int value) as [e|s]; [reflexivity|].
  rewrite run_bind, run_act; simpl exec; rewrite ?Hh, ?lookup_insert_eq;
    cbv iota; simpl handles; simpl file_path; simpl buffer; rewrite ?insert_insert_eq.
  rewrite run_bind, run_lift; cbv iota.
  rewrite run_bind, run_act; simpl exec; rewrite ?Hh, ?lookup_insert_eq;
    cbv iota; simpl handles; simpl file_path; simpl buffer; rewrite ?insert_insert_eq.
  reflexivity.
Qed.

Lemma counter_prefix_cons :
  exists c b, Json.counter_prefix = String c b.
Proof. by eexists _, _. Qed.

(** [_write_counter] in closed form. *)
Lemma run_write_counter c path value w :
  run c (_write_counter path value) w =
  match with_suffix path ".tmp" with
  | inl e => (Raised e, w)
  | inr tmp_path =>
      match repr_int value with
      | inr _ => (Returned tt, written w path tmp_path value)
      | inl e => (Raised e, aborted w tmp_path)
      end
  end.
Proof.
  unfold _write_counter. rewrite run_bind, run_act. simpl exec. cbv iota.
  rewrite run_bind, run_lift.
  destruct (with_suffix path ".tmp") as [e|tmp_path]; [done|].
  rewrite run_bind, run_act. simpl exec. cbv iota.
  set (h := fresh (dom (handles w))).
  rewrite run_bind, run_try_finally.
  rewrite (run_dump c h (fspath tmp_path)) by (simpl; apply lookup_insert_eq).
  destruct (repr_int value) as [e|s] eqn:Hrepr.
  - rewrite run_act. simpl exec. cbv iota. unfold flushed, aborted. simpl.
    rewrite !lookup_insert_eq. destruct counter_prefix_cons as (a & b & ->).
    rewrite ?lookup_insert_eq, ?drop_empty, JsonFacts.append_nil_r.
    by rewrite !insert_insert_eq, !delete_insert_eq.
  - apply JsonFacts.repr_int_inr in Hrepr as [Hz ->].
    rewrite run_act. simpl exec. cbv iota. rewrite run_act. unfold flushed. simpl.
    rewrite !lookup_insert_eq.
    change (Json.counter_prefix +:+ decimal value +:+ "}") with (Json.counter_text value).
    destruct (Json.counter_text value) as [|a b] eqn:Htext; [done|].
    rewrite ?lookup_insert_eq, ?drop_empty, JsonFacts.append_nil_r.
    rewrite !insert_insert_eq, ?lookup_insert_eq. unfold written, set_files. simpl.
    by rewrite !delete_insert_eq, Htext.
Qed.

End StoreFacts.

(** ** Paths: [suffix], [stem], [with_suffix] *)

Module PathFacts.
Import Py Pathlib JsonFacts.

Lemma drop_length i s :
  (i <= String.length s)%nat -> String.length (Json.drop i s) = (String.length s - i)%nat.
Proof.
  revert s. induction i as [|i IH]; intros s Hi; simpl.
  - by rewrite Nat.sub_0_r.
  - destruct s as [|a s]; simpl in *; [lia|]. apply IH. lia.
Qed.

Lemma take_drop i s : take i s +:+ Json.drop i s = s.
Proof.
  revert s. induction i as [|i IH]; intros s; simpl; [done|].
  destruct s as [|a s]; [done|]. rewrite append_cons. by rewrite IH.
Qed.

Lemma take_all s : take (String.length s) s = s.
Proof. induction s as [|a s IH]; simpl; [done|]. by rewrite IH. Qed.

Lemma take_app s t : take (String.length s) (s +:+ t) = s.
Proof.
  induction s as [|a s IH]; simpl; [done|]. by rewrite IH.
Qed.

Lemma drop_app s t : Json.drop (String.length s) (s +:+ t) = t.
Proof.
  induction s as [|a s IH]; simpl; [done|]. apply IH.
Qed.

Lemma length_append s t :
  String.length (s +:+ t) = (String.length s + String.length t)%nat.
Proof.
  induction s as [|a s IH]; simpl; [done|]. by rewrite IH.
Qed.

Lemma rfind_lt c s i : rfind c s = Some i -> (i < String.length s)%nat.
Proof.
  revert i. induction s as [|a s IH]; intros i; simpl; [done|].
  destruct (rfind c s) as [j|].
  - intros [= <-]. specialize (IH j eq_refl). lia.
  - destruct (Ascii.eqb a c); [|done]. intros [= <-]. lia.
Qed.

Lemma rfind_none c s : rfind c s = None <-> contains c s = false.
Proof.
  induction s as [|a s IH]; simpl; [done|].
  destruct (rfind c s) as [j|].
  - split; [done|]. intros [_ H]%orb_false_iff. by apply IH in H.
  - destruct (Ascii.eqb a c); simpl; [done|]. split; [|done]. intros _. by apply IH.
Qed.

(** The last [c] of [s]: what follows it has no [c]. *)
Lemma rfind_some c s i :
  rfind c s = Some i ->
  s = take i s +:+ String c (Json.drop (S i) s) /\ contains c (Json.drop (S i) s) = false.
Proof.
  revert i. induction s as [|a s IH]; intros i; simpl; [done|].
  destruct (rfind c s) as [j|] eqn:E.
  - intros [= <-]. destruct (IH j eq_refl) as [H1 H2]. split; [|done].
    simpl take. rewrite append_cons. by rewrite <- H1.
  - destruct (Ascii.eqb a c) eqn:Ea; [|done]. intros [= <-].
    apply Ascii.eqb_eq in Ea as ->. simpl. rewrite append_nil.
    split; [done|]. by apply rfind_none.
Qed.

Lemma rfind_app c s t :
  contains c t = false -> rfind c (s +:+ String c t) = Some (String.length s).
Proof.
  intros Ht. induction s as [|a s IH].
  - rewrite append_nil. simpl. apply rfind_none in Ht as ->. by rewrite Ascii.eqb_refl.
  - rewrite append_cons. simpl. by rewrite IH.
Qed.

(** A name is its stem followed by its suffix. *)
Lemma stem_suffix p : name p = stem p +:+ suffix p.
Proof.
  unfold stem, suffix, suffix_of.
  destruct (rfind "." (name p)) as [i|] eqn:E.
  - destruct ((0 <? i)%nat && (i <? String.length (name p) - 1)%nat).
    + apply rfind_lt in E. rewrite drop_length by lia.
      replace (String.length (name p) - (String.length (name p) - i))%nat with i by lia.
      by rewrite take_drop.
    + simpl. by rewrite Nat.sub_0_r, take_all, append_nil_r.
  - simpl. by rewrite Nat.sub_0_r, take_all, append_nil_r.
Qed.

(** The suffix of a name that ends in a dot and an extension, with
    something before the dot. *)
Lemma suffix_of_ext s ext :
  s <> EmptyString -> ext <> EmptyString -> contains "." ext = false ->
  suffix_of (s +:+ String "." ext) = String "." ext.
Proof.
  intros Hs Hext Hdot. unfold suffix_of. rewrite (rfind_app _ _ _ Hdot).
  rewrite length_append. simpl String.length.
  assert (0 < String.length s)%nat as H1 by (destruct s; [done|simpl; lia]).
  assert (0 < String.length ext)%nat as H2 by (destruct ext; [done|simpl; lia]).
  replace ((0 <? String.length s)%nat) with true by (symmetry; apply Nat.ltb_lt; lia).
  replace ((String.length s <? String.length s + S (String.length ext) - 1)%nat)
    with true by (symmetry; apply Nat.ltb_lt; lia).
  simpl andb. cbv iota. apply drop_app.
Qed.

(** A name that is not of this form has no suffix. *)
Lemma suffix_of_none nm :
  (forall s ext, nm = s +:+ String "." ext ->
     s = EmptyString \/ ext = EmptyString \/ contains "." ext = true) ->
  suffix_of nm = EmptyString.
Proof.
  intros Hno. unfold suffix_of. destruct (rfind "." nm) as [i|] eqn:E; [|done].
  destruct ((0 <? i)%nat && (i <? String.length nm - 1)%nat) eqn:Hi; [|done].
  apply andb_true_iff in Hi as [H0%Nat.ltb_lt H1%Nat.ltb_lt].
  destruct (rfind_some _ _ _ E) as [Hsplit Hdot].
  pose proof (rfind_lt _ _ _ E) as Hlt.
  destruct (Hno _ _ Hsplit) as [Hs|[Hext|Hc]].
  - exfalso. assert (String.length (take i nm) = 0%nat) as Hl by (by rewrite Hs).
    pose proof (take_drop i nm) as Htd. apply (f_equal String.length) in Htd.
    rewrite length_append, drop_length, Hl in Htd by lia. lia.
  - exfalso. assert (String.length (Json.drop (S i) nm) = 0%nat) as Hl by (by rewrite Hext).
    rewrite drop_length in Hl by lia. lia.
  - congruence.
Qed.

Lemma stem_ext p s ext :
  name p = s +:+ String "." ext ->
  s <> EmptyString -> ext <> EmptyString -> contains "." ext = false ->
  suffix p = String "." ext /\ stem p = s.
Proof.
  intros Hn Hs Hext Hdot.
  assert (suffix p = String "." ext) as Hsfx.
  { unfold suffix. rewrite Hn. by apply suffix_of_ext. }
  split; [done|]. unfold stem. rewrite Hsfx, Hn, length_append.
  replace (String.length s + String.length (String "." ext)
           - String.length (String "." ext))%nat with (String.length s) by lia.
  apply take_app.
Qed.

Lemma stem_no_ext p :
  (forall s ext, name p = s +:+ String "." ext ->
     s = EmptyString \/ ext = EmptyString \/ contains "." ext = true) ->
  suffix p = EmptyString /\ stem p = name p.
Proof.
  intros Hno. assert (suffix p = EmptyString) as Hsfx by (by apply suffix_of_none).
  split; [done|]. unfold stem. rewrite Hsfx. simpl. by rewrite Nat.sub_0_r, take_all.
Qed.

Lemma with_suffix_inr p sfx q :
  with_suffix p sfx = inr q ->
  name p <> EmptyString
  /\ q = mkPath (anchor p) (List.removelast (parts p) ++ [stem p +:+ sfx]).
Proof.
  unfold with_suffix.
  destruct (contains "/" sfx); [done|].
  destruct (_ || _); [done|].
  destruct (String.eqb (name p) EmptyString) eqn:E; [done|].
  intros [= <-]. split; [|done]. intros Hn. by rewrite Hn in E.
Qed.

Lemma with_suffix_lock p :
  name p <> EmptyString ->
  with_suffix p ".lock"
  = inr (mkPath (anchor p) (List.removelast (parts p) ++ [stem p +:+ ".lock"])).
Proof.
  intros Hn. unfold with_suffix. simpl.
  destruct (String.eqb (name p) EmptyString) eqn:E; [|done].
  by apply String.eqb_eq in E.
Qed.

Lemma with_suffix_other p sfx q :
  with_suffix p sfx = inr q ->
  with_suffix p ".tmp"
  = inr (mkPath (anchor p) (List.removelast (parts p) ++ [stem p +:+ ".tmp"])).
Proof.
  intros [Hn _]%with_suffix_inr. unfold with_suffix. simpl.
  destruct (String.eqb (name p) EmptyString) eqn:E; [|done].
  by apply String.eqb_eq in E.
Qed.

Lemma sibling p nm :
  parent (mkPath (anchor p) (List.removelast (parts p) ++ [nm])) = parent p
  /\ name (mkPath (anchor p) (List.removelast (parts p) ++ [nm])) = nm.
Proof.
  split.
  - unfold parent. simpl. by rewrite List.removelast_last.
  - unfold name. simpl. by rewrite List.last_last.
Qed.

End PathFacts.

(** ** The guard: [_exclusive_file_lock] *)

Module LockFacts.
Import Py Pathlib Os Prog CounterService Spec ProgFacts StoreFacts.

Lemma filter_filter_holder h (m : gmap string nat) :
  filter (fun kv : string * nat => kv.2 ≠ h) (filter (fun kv : string * nat => kv.2 ≠ h) m)
  = filter (fun kv : string * nat => kv.2 ≠ h) m.
Proof.
  apply map_eq. intros k. rewrite !map_lookup_filter.
  destruct (m !! k) as [x|]; simpl; [|done].
  repeat (case_guard; simpl); done.
Qed.

(** The [finally] blocks of the guard: unlock, then close, whatever happens. *)
Lemma run_release c h w :
  run c (try_finally (act (Flock h LOCK_UN)) (act (Close h))) w
  = (match handles w !! h with Some _ => Returned tt | None => Raised closed_exn end,
     released h w).
Proof.
  rewrite run_try_finally, !run_act. simpl exec. unfold released.
  destruct (handles w !! h) as [f|] eqn:Hh; simpl; [|done].
  rewrite filter_filter_holder. unfold flushed. simpl. by rewrite Hh.
Qed.

(** A run of the guard: blocked at the lock, or [body] between acquisition
    and release. *)
Lemma run_lock c {A} target (body : prog A) w lock_path :
  with_suffix target ".lock" = inr lock_path ->
  run c (_exclusive_file_lock target body) w =
  match acquired w lock_path with
  | None => (Blocked, opened w lock_path)
  | Some w2 =>
      match run c body w2 with
      | (Blocked, w3) => (Blocked, w3)
      | (out, w3) =>
          (match handles w3 !! next_handle w with
           | Some _ => out
           | None => Raised closed_exn
           end, released (next_handle w) w3)
      end
  end.
Proof.
  intros Hlp. unfold _exclusive_file_lock. rewrite run_bind, run_lift, Hlp.
  rewrite run_bind, run_act. simpl exec. cbv iota.
  rewrite run_bind, run_act. simpl exec. cbv iota.
  rewrite run_try_finally, run_bind, run_act.
  fold (next_handle w). unfold acquired, opened. simpl exec. simpl handles.
  rewrite lookup_insert_eq. simpl flocks. simpl files. simpl file_path.
  fold (next_handle w).
  destruct (flocks w !! fspath lock_path) as [h'|].
  - destruct (decide (h' = next_handle w)); [|done].
    match goal with |- context [run c body ?w2] =>
      destruct (run c body w2) as [[a0|e0|] w3] end; [| |done];
      rewrite run_release; by destruct (handles w3 !! next_handle w).
  - match goal with |- context [run c body ?w2] =>
      destruct (run c body w2) as [[a0|e0|] w3] end; [| |done];
      rewrite run_release; by destruct (handles w3 !! next_handle w).
Qed.

Lemma run_lock_raises c {A} target (body : prog A) w e :
  with_suffix target ".lock" = inl e ->
  run c (_exclusive_file_lock target body) w = (Raised e, w).
Proof.
  intros He. unfold _exclusive_file_lock. by rewrite run_bind, run_lift, He.
Qed.

(** The guard holds the lock on the file it has opened. *)
Lemma acquired_holds w lock_path w2 :
  acquired w lock_path = Some w2 ->
  flocks w2 !! fspath lock_path = Some (next_handle w)
  /\ handles w2 !! next_handle w = Some (File (fspath lock_path) EmptyString)
  /\ files w2 = <[fspath lock_path := EmptyString]> (files w)
  /\ refused w2 = refused w.
Proof.
  unfold acquired. destruct (flocks w !! fspath lock_path) as [h'|] eqn:E.
  - destruct (decide _) as [->|]; [|done]. intros [= <-]. simpl.
    split; [done|]. split; [apply lookup_insert_eq|done].
  - intros [= <-]. simpl. split; [apply lookup_insert_eq|].
    split; [apply lookup_insert_eq|done].
Qed.

(** The first worlds of the guard: after [mkdir], after [open("w")], and
    after [LOCK_EX] if the lock is to be had. *)
Lemma worlds_lock c {A} target (body : prog A) w lock_path :
  with_suffix target ".lock" = inr lock_path ->
  worlds c (_exclusive_file_lock target body) w !! 0%nat = Some w
  /\ worlds c (_exclusive_file_lock target body) w !! 1%nat = Some (opened w lock_path)
  /\ worlds c (_exclusive_file_lock target body) w !! 2%nat = acquired w lock_path.
Proof.
  intros Hlp. unfold _exclusive_file_lock. rewrite Hlp. simpl.
  rewrite lookup_insert_eq. simpl. fold (next_handle w). unfold acquired, opened. simpl.
  split; [done|]. split; [done|].
  destruct (flocks w !! fspath lock_path) as [h'|]; [|done].
  by destruct (decide (h' = next_handle w)).
Qed.

End LockFacts.

(** ** The view: [index] *)

Module IndexFacts.
Import Py Pathlib Os Prog CounterService Spec ProgFacts StoreFacts PathFacts LockFacts.

(** [_read_counter] ends, and touches nothing but the log. *)
Lemma read_frame c path w :
  exists out w1,
    run c (_read_counter path) w = (out, w1)
    /\ out <> Blocked
    /\ files w1 = files w /\ handles w1 = handles w
    /\ flocks w1 = flocks w /\ refused w1 = refused w.
Proof.
  destruct (files w !! fspath path) as [raw|] eqn:Hraw.
  - rewrite (read_found _ _ _ _ Hraw).
    destruct (counter_of_bytes (room c) raw); eauto 10.
  - rewrite (read_absent _ _ _ Hraw).
    destruct (refusal w (fspath path)); eauto 10.
Qed.

(** The handle of the guard is not the one [_write_counter] opens. *)
Lemma lock_handle_kept (hs : gmap nat file_object) h f :
  hs !! h = Some f -> delete (fresh (dom hs)) hs !! h = Some f.
Proof.
  intros Hh. rewrite lookup_delete_ne; [done|].
  intros Heq. apply (is_fresh (dom hs)). rewrite Heq. apply elem_of_dom. eauto.
Qed.

(** What a [POST /] that returned has done. *)
Lemma index_post_returned environ c w resp w' :
  run c (index environ "POST") w = (Returned resp, w') ->
  exists lock_path w2 v w2' tmp_path,
    with_suffix (Path_of (COUNTER_FILE environ)) ".lock" = inr lock_path
    /\ acquired w lock_path = Some w2
    /\ run c (_read_counter (Path_of (COUNTER_FILE environ))) w2 = (Returned v, w2')
    /\ with_suffix (Path_of (COUNTER_FILE environ)) ".tmp" = inr tmp_path
    /\ Z.abs (v + 1) < 10 ^ Z.of_nat max_str_digits
    /\ resp = ([("counter", PInt (v + 1))], 200)
    /\ w' = logged (released (next_handle w)
                      (written w2' (Path_of (COUNTER_FILE environ)) tmp_path (v + 1)))
                   (incremented c (v + 1))
    /\ files w' = files (written w2' (Path_of (COUNTER_FILE environ)) tmp_path (v + 1)).
Proof.
  set (path := Path_of (COUNTER_FILE environ)).
  unfold index. fold path. simpl String.eqb. cbv iota. rewrite run_bind.
  destruct (with_suffix path ".lock") as [e|lock_path] eqn:Hlp.
  { by rewrite (run_lock_raises _ _ _ _ _ Hlp). }
  rewrite (run_lock _ _ _ _ _ Hlp).
  destruct (acquired w lock_path) as [w2|] eqn:Hacq; [|done].
  destruct (acquired_holds _ _ _ Hacq) as (_ & Hh2 & _).
  rewrite run_bind.
  destruct (read_frame c path w2) as (out & w1 & Hread & Hnb & _ & Hh & _).
  assert (handles w1 !! next_handle w = Some (File (fspath lock_path) EmptyString))
    as Hh1 by (by rewrite Hh).
  rewrite Hread. destruct out as [v|e|]; [| |done].
  2:{ by rewrite Hh1. }
  rewrite run_bind, run_write_counter, (with_suffix_other _ _ _ Hlp).
  set (tmp_path := mkPath _ _).
  destruct (repr_int (v + 1)) as [e|s] eqn:Hrepr.
  { unfold aborted. simpl handles. rewrite (lock_handle_kept _ _ _ Hh1).
    done. }
  apply JsonFacts.repr_int_inr in Hrepr as Hz. destruct Hz as [Hz _].
  change (run c (Ret (v + 1)) ?x) with (Returned (v + 1), x). cbv beta iota.
  assert (handles (written w1 path tmp_path (v + 1)) !! next_handle w
          = Some (File (fspath lock_path) EmptyString)) as Hh3
    by exact (lock_handle_kept _ _ _ Hh1).
  rewrite Hh3, run_bind, run_log_json by (cbn -[repr_int]; by rewrite Hrepr).
  change (run c (Ret ?r) ?x) with (Returned r, x). intros [= <- <-].
  exists lock_path, w2, v, w1, tmp_path. repeat (split; [done|]).
  unfold logged, released, flushed. cbn [files]. by rewrite Hh3.
Qed.

(** The file a [POST /] that returned leaves behind. *)
Lemma index_post_file environ c w resp w' v :
  run c (index environ "POST") w = (Returned resp, w') ->
  resp = ([("counter", PInt v)], 200) ->
  Z.abs v < 10 ^ Z.of_nat max_str_digits
  /\ files w' !! fspath (Path_of (COUNTER_FILE environ)) = Some (Json.counter_text v).
Proof.
  intros Hrun Hresp.
  destruct (index_post_returned _ _ _ _ _ Hrun)
    as (lp & w2 & v0 & w2' & tmp & _ & _ & _ & _ & Hz & Hr & _ & Hfiles).
  rewrite Hr in Hresp. injection Hresp as <-. split; [done|].
  rewrite Hfiles. simpl. apply lookup_insert_eq.
Qed.

Lemma stored_counter_text fs path v :
  Z.abs v < 10 ^ Z.of_nat max_str_digits ->
  fs !! fspath path = Some (Json.counter_text v) -> stored fs path = v.
Proof.
  intros Hz Hfile. unfold stored. rewrite Hfile.
  destruct (String.length (Json.counter_text v)) as [|n] eqn:Hlen; [done|].
  by rewrite counter_of_counter_text.
Qed.

End IndexFacts.

(** ** Claims about the store *)

Module StoreClaims.
Import Py Pathlib Os Prog CounterService Spec ProgFacts StoreFacts.

(** C3. Write/read round trip: once [_write_counter path value] has
    returned, [_read_counter path] returns [value], for every path and every
    integer, and leaves the world as it is. *)
Theorem write_read_round_trip c path value w w' :
  run c (_write_counter path value) w = (Returned tt, w') ->
  run c (_read_counter path) w' = (Returned value, w').
Proof.
  rewrite run_write_counter.
  destruct (with_suffix path ".tmp") as [e|tmp_path]; [done|].
  destruct (repr_int value) as [e|s] eqn:Hrepr; [done|].
  apply JsonFacts.repr_int_inr in Hrepr as [Hz _].
  intros [= <-].
  rewrite (read_found _ _ _ (Json.counter_text value)).
  - unfold room. by rewrite counter_of_counter_text.
  - unfold written. simpl. apply lookup_insert_eq.
Qed.

Lemma write_read_round_trip_witness :
  exists w',
    run me (_write_counter counter_json (-17)) w_empty = (Returned tt, w')
    /\ run me (_read_counter counter_json) w' = (Returned (-17), w').
Proof.
  eexists. split; [|apply (write_read_round_trip me counter_json (-17) w_empty)];
    rewrite run_write_counter; reflexivity.
Defined.




End StoreClaims.

(** ** Claims about reading *)

Module ReadClaims.
Import Py Pathlib Os Prog CounterService Spec ProgFacts StoreFacts.

Lemma warned_read_failed c path e l : warned path (l ++ [read_failed c path e]).
Proof.
  exists (snd (read_failed c path e)). split; [|repeat split; eauto].
  apply list_elem_of_In, in_or_app. right. by left.
Qed.

(** C5 as stated fails: an object without the field is read as 0 with no
    warning, and a [counter] that is not an integer in the document can be
    read as a number other than 0: the float 3.9 as 3, the string of the
    fullwidth digits 42 as 42. *)
Lemma read_fail_open_counterexample :
  (Json.load (room me) "{}" = inr (PDict [])
   /\ run me (_read_counter counter_json) (w_with counter_json "{}")
      = (Returned 0, w_with counter_json "{}")
   /\ ~ warned counter_json (log (w_with counter_json "{}")))
  /\ run me (_read_counter counter_json) (w_with counter_json (counter_file "3.9"))
     = (Returned 3, w_with counter_json (counter_file "3.9"))
  /\ run me (_read_counter counter_json) (w_with counter_json (counter_file fullwidth_42))
     = (Returned 42, w_with counter_json (counter_file fullwidth_42)).
Proof.
  split; [split; [|split]|split]; try (vm_compute; reflexivity).
  intros (payload & Hin & _). simpl in Hin. by apply elem_of_nil in Hin.
Qed.

(** C5, as amended. For a counter file that is there: bytes that
    [json.load] rejects, a document that is not an object, and a [counter]
    field that [int()] rejects each make [_read_counter] return 0 and log
    one [read_failed] warning with the path and the error; an object without
    a [counter] field makes it return 0 and log nothing; a [counter] field
    that [int()] accepts is returned converted, with nothing logged. It
    never raises. *)
Theorem read_fail_open c path w raw :
  files w !! fspath path = Some raw ->
  (forall e, Json.load (room c) raw = inl e ->
     run c (_read_counter path) w = (Returned 0, logged w (read_failed c path e))
     /\ warned path (log (logged w (read_failed c path e))))
  /\ (forall data e, Json.load (room c) raw = inr data ->
     get data "counter" (PInt 0) = inl e ->
     run c (_read_counter path) w = (Returned 0, logged w (read_failed c path e))
     /\ warned path (log (logged w (read_failed c path e))))
  /\ (forall d v e, Json.load (room c) raw = inr (PDict d) ->
     dict_lookup "counter" d = Some v -> int v = inl e ->
     run c (_read_counter path) w = (Returned 0, logged w (read_failed c path e))
     /\ warned path (log (logged w (read_failed c path e))))
  /\ (forall d, Json.load (room c) raw = inr (PDict d) ->
     dict_lookup "counter" d = None ->
     run c (_read_counter path) w = (Returned 0, w))
  /\ (forall d v z, Json.load (room c) raw = inr (PDict d) ->
     dict_lookup "counter" d = Some v -> int v = inr z ->
     run c (_read_counter path) w = (Returned z, w))
  /\ (exists z w', run c (_read_counter path) w = (Returned z, w')).
Proof.
  intros Hraw. rewrite (read_found _ _ _ _ Hraw). unfold counter_of_bytes.
  split; [|split; [|split; [|split; [|split]]]].
  - intros e ->. split; [done|apply warned_read_failed].
  - intros data e -> He. simpl. rewrite He. split; [done|apply warned_read_failed].
  - intros d v e -> Hv He. simpl. rewrite Hv, He. split; [done|apply warned_read_failed].
  - intros d -> Hd. simpl. by rewrite Hd.
  - intros d v z -> Hv Hz. simpl. by rewrite Hv, Hz.
  - destruct (res_bind _ _); eauto.
Qed.

Lemma read_fail_open_witness :
  files (w_with counter_json "{") !! fspath counter_json = Some "{"
  /\ (exists e,
        Json.load (room me) "{" = inl e
        /\ run me (_read_counter counter_json) (w_with counter_json "{")
           = (Returned 0, logged (w_with counter_json "{") (read_failed me counter_json e)))
  /\ (exists e,
        Json.load (room shallow) "[[]]" = inl e
        /\ exn_cls e = RecursionError
        /\ run shallow (_read_counter counter_json) (w_with counter_json "[[]]")
           = (Returned 0,
              logged (w_with counter_json "[[]]") (read_failed shallow counter_json e))).
Proof.
  split; [reflexivity|]. split.
  - eexists. split; [reflexivity|].
    apply (read_fail_open me counter_json (w_with counter_json "{") "{"); reflexivity.
  - eexists. split; [reflexivity|]. split; [reflexivity|].
    apply (read_fail_open shallow counter_json (w_with counter_json "[[]]") "[[]]");
      reflexivity.
Defined.

End ReadClaims.

(** ** Claims about conversions *)

Module ConvertClaims.
Import Py Pathlib Os Prog CounterService Spec ProgFacts StoreFacts.




End ConvertClaims.

(** ** Claims about the guard *)

Module LockClaims.
Import Py Pathlib Os Prog CounterService Spec ProgFacts StoreFacts PathFacts LockFacts.

(** C6. Whenever [with _exclusive_file_lock(path): body] comes to an end,
    by a return of [body] or by an exception in it, the lock handle is closed
    and holds no lock in the world the caller sees, and the result of [body]
    is the result of the statement as long as the handle was still open. *)
Theorem lock_released_on_exit c {A} path (body : prog A) w lock_path out w' :
  with_suffix path ".lock" = inr lock_path ->
  run c (_exclusive_file_lock path body) w = (out, w') ->
  out <> Blocked ->
  handles w' !! next_handle w = None
  /\ (forall f, flocks w' !! f <> Some (next_handle w))
  /\ exists w2 out_body w3,
       acquired w lock_path = Some w2
       /\ run c body w2 = (out_body, w3)
       /\ w' = released (next_handle w) w3
       /\ (is_Some (handles w3 !! next_handle w) -> out = out_body).
Proof.
  intros Hlp Hrun Hout. rewrite (run_lock _ _ _ _ _ Hlp) in Hrun.
  destruct (acquired w lock_path) as [w2|]; [|by inversion Hrun; subst].
  destruct (run c body w2) as [out_body w3] eqn:Hbody.
  assert (w' = released (next_handle w) w3
          /\ (is_Some (handles w3 !! next_handle w) -> out = out_body)) as [-> Hsame].
  { destruct out_body; inversion Hrun; subst; try done;
      (split; [done|]); by intros [? ->]. }
  split; [|split].
  - simpl. apply lookup_delete_eq.
  - intros f. simpl. rewrite map_lookup_filter.
    destruct (flocks w3 !! f) as [x|]; simpl; [|done].
    case_guard; simpl; congruence.
  - eauto 10.
Qed.

Lemma lock_released_on_exit_witness :
  exists w',
    run me (_exclusive_file_lock (A := unit) counter_json
              (Throw (Exn TypeError "boom"))) w_empty
    = (Raised (Exn TypeError "boom"), w')
    /\ handles w' !! next_handle w_empty = None
    /\ (forall f, flocks w' !! f <> Some (next_handle w_empty)).
Proof.
  eexists. split; [vm_compute; reflexivity|].
  destruct (lock_released_on_exit (A := unit) me counter_json (Throw (Exn TypeError "boom"))
              w_empty (Path_of "/data/counter.lock")
              (Raised (Exn TypeError "boom")) _ eq_refl eq_refl) as (H1 & H2 & _).
  - discriminate.
  - split; [exact H1|exact H2].
Defined.

(** C8. For a counter path with a final component, the guard opens, and
    locks, a file in the directory of the counter file whose name is the
    name of the counter file with [.lock] in place of its extension (the
    text from the last dot on, when there is something before that dot and
    after it), or with [.lock] added when the name has no extension. The
    file is the second thing the guard touches, after the directory; the
    lock is on that file from the third step on, unless the guard has to
    wait for it. *)
Theorem lock_path_next_to_counter c {A} p (body : prog A) w :
  name p <> EmptyString ->
  exists lock_path,
    with_suffix p ".lock" = inr lock_path
    /\ parent lock_path = parent p
    /\ (forall s ext, name p = s +:+ String "." ext ->
          s <> EmptyString -> ext <> EmptyString -> contains "." ext = false ->
          name lock_path = s +:+ ".lock")
    /\ ((forall s ext, name p = s +:+ String "." ext ->
           s = EmptyString \/ ext = EmptyString \/ contains "." ext = true) ->
        name lock_path = name p +:+ ".lock")
    /\ worlds c (_exclusive_file_lock p body) w !! 1%nat = Some (opened w lock_path)
    /\ files (opened w lock_path) !! fspath lock_path = Some EmptyString
    /\ handles (opened w lock_path) !! next_handle w
       = Some (File (fspath lock_path) EmptyString)
    /\ (forall w2, acquired w lock_path = Some w2 ->
          worlds c (_exclusive_file_lock p body) w !! 2%nat = Some w2
          /\ flocks w2 !! fspath lock_path = Some (next_handle w)
          /\ handles w2 !! next_handle w = Some (File (fspath lock_path) EmptyString))
    /\ (acquired w lock_path = None ->
          run c (_exclusive_file_lock p body) w = (Blocked, opened w lock_path)).
Proof.
  intros Hn. pose proof (with_suffix_lock p Hn) as Hlp.
  eexists. split; [exact Hlp|].
  destruct (sibling p (stem p +:+ ".lock")) as [Hparent Hname].
  destruct (worlds_lock c p body w _ Hlp) as (_ & H1 & H2).
  split; [exact Hparent|]. split; [|split; [|split; [exact H1|split; [|split; [|split]]]]].
  - intros s ext Hsplit Hs Hext Hdot. rewrite Hname.
    by destruct (stem_ext p s ext Hsplit Hs Hext Hdot) as [_ ->].
  - intros Hno. rewrite Hname. by destruct (stem_no_ext p Hno) as [_ ->].
  - simpl. apply lookup_insert_eq.
  - simpl. apply lookup_insert_eq.
  - intros w2 Hacq. rewrite H2. split; [done|].
    destruct (acquired_holds _ _ _ Hacq) as (Hf & Hh & _). by split.
  - intros Hacq. by rewrite (run_lock _ _ _ _ _ Hlp), Hacq.
Qed.

Lemma lock_path_next_to_counter_witness :
  name counter_json <> EmptyString
  /\ exists lock_path,
       fspath lock_path = "/data/counter.lock"
       /\ parent lock_path = parent counter_json
       /\ name lock_path = "counter.lock"
       /\ worlds me (_exclusive_file_lock counter_json (Ret tt)) w_empty !! 1%nat
          = Some (opened w_empty lock_path)
       /\ exists w2,
            worlds me (_exclusive_file_lock counter_json (Ret tt)) w_empty !! 2%nat = Some w2
            /\ flocks w2 !! fspath lock_path = Some (next_handle w_empty).
Proof.
  assert (name counter_json <> EmptyString) as Hn by discriminate.
  split; [exact Hn|].
  destruct (lock_path_next_to_counter me counter_json (Ret tt) w_empty Hn)
    as (lock_path & Hlp & Hparent & Hext & _ & H1 & _ & _ & H2 & _).
  exists lock_path. injection Hlp as <-.
  split; [reflexivity|]. split; [exact Hparent|].
  split; [apply (Hext "counter" "json"); [reflexivity|discriminate|discriminate|reflexivity]|].
  split; [exact H1|].
  edestruct H2 as (Ha & Hb & _); [reflexivity|].
  eexists. split; [exact Ha|exact Hb].
Defined.

End LockClaims.

(** ** Claims about the view *)

Module IndexClaims.
Import Py Pathlib Os Prog CounterService Spec ProgFacts StoreFacts LockFacts IndexFacts.

(** C2. A [POST /] that returns answers with the value [_read_counter] read
    under the lock plus one, and that value is in the counter file when the
    answer is produced: reading the file then gives it back. *)
Theorem increment_returns_new_count environ c w resp w' :
  run c (index environ "POST") w = (Returned resp, w') ->
  exists lock_path w2 v w2',
    with_suffix (Path_of (COUNTER_FILE environ)) ".lock" = inr lock_path
    /\ acquired w lock_path = Some w2
    /\ run c (_read_counter (Path_of (COUNTER_FILE environ))) w2 = (Returned v, w2')
    /\ resp = ([("counter", PInt (v + 1))], 200)
    /\ files w' !! fspath (Path_of (COUNTER_FILE environ)) = Some (Json.counter_text (v + 1))
    /\ run c (_read_counter (Path_of (COUNTER_FILE environ))) w' = (Returned (v + 1), w').
Proof.
  intros Hrun.
  destruct (index_post_returned _ _ _ _ _ Hrun)
    as (lock_path & w2 & v & w2' & tmp_path & Hlp & Hacq & Hread & _ & Hz & Hresp & _).
  destruct (index_post_file _ _ _ _ _ _ Hrun Hresp) as [_ Hfile].
  exists lock_path, w2, v, w2'. repeat (split; [done|]).
  rewrite (read_found _ _ _ _ Hfile). unfold room. by rewrite counter_of_counter_text.
Qed.

Lemma increment_returns_new_count_witness :
  exists w',
    run me (index ∅ "POST") (w_with counter_json (counter_file "41"))
    = (Returned ([("counter", PInt 42)], 200), w')
    /\ run me (_read_counter counter_json) w' = (Returned 42, w').
Proof.
  assert (run me (index ∅ "POST") (w_with counter_json (counter_file "41"))
          = (Returned ([("counter", PInt 42)], 200),
             (run me (index ∅ "POST") (w_with counter_json (counter_file "41"))).2))
    as Hrun by (vm_compute; reflexivity).
  eexists. split; [exact Hrun|].
  destruct (increment_returns_new_count ∅ me _ _ _ Hrun)
    as (lp & w2 & v & w2' & _ & _ & _ & Hresp & _ & Hread).
  injection Hresp as Hv. assert (v = 41) as -> by lia. exact Hread.
Defined.

End IndexClaims.

(** ** Claims about the counter as a whole *)

Module InvariantClaims.
Import Py Pathlib Os Prog CounterService Spec ProgFacts StoreFacts LockFacts IndexFacts.

(** C9 as stated fails: a file that holds a negative counter is read as
    that negative number, and the increment stores the next one. *)
Lemma counter_nonnegative_counterexample :
  run me (_read_counter counter_json) (w_with counter_json (counter_file "-5"))
  = (Returned (-5), w_with counter_json (counter_file "-5"))
  /\ (run me (index ∅ "POST") (w_with counter_json (counter_file "-5"))).1
     = Returned ([("counter", PInt (-4))], 200)
  /\ files (run me (index ∅ "POST") (w_with counter_json (counter_file "-5"))).2
       !! fspath counter_json = Some (Json.counter_text (-4)).
Proof. split; [|split]; vm_compute; reflexivity. Qed.

(** C9, as amended. A [POST /] that returns answers with the value
    [_read_counter] read under the lock plus one and leaves that value in
    the counter file; it is at least 1 when the value read is not negative.
    [_read_counter] returns 0 for a path without a file when [exists()]
    answers, 0 for a file it cannot make a counter of, and otherwise the
    integer [int()] makes of the field, which is the number in the file, of
    either sign, when the file was written by [_write_counter]. *)
Theorem counter_nonnegative_kept environ c w resp w' :
  run c (index environ "POST") w = (Returned resp, w') ->
  (exists lock_path w2 v w2',
     with_suffix (Path_of (COUNTER_FILE environ)) ".lock" = inr lock_path
     /\ acquired w lock_path = Some w2
     /\ run c (_read_counter (Path_of (COUNTER_FILE environ))) w2 = (Returned v, w2')
     /\ resp = ([("counter", PInt (v + 1))], 200)
     /\ stored (files w') (Path_of (COUNTER_FILE environ)) = v + 1
     /\ (0 <= v -> 1 <= stored (files w') (Path_of (COUNTER_FILE environ))))
  /\ (forall c' path w0,
        (files w0 !! fspath path = None -> refusal w0 (fspath path) = None ->
           run c' (_read_counter path) w0 = (Returned 0, w0))
        /\ (forall raw e, files w0 !! fspath path = Some raw ->
              counter_of_bytes (room c') raw = inl e ->
              run c' (_read_counter path) w0
              = (Returned 0, logged w0 (read_failed c' path e)))
        /\ (forall raw z, files w0 !! fspath path = Some raw ->
              counter_of_bytes (room c') raw = inr z ->
              run c' (_read_counter path) w0 = (Returned z, w0))
        /\ (forall z, Z.abs z < 10 ^ Z.of_nat max_str_digits ->
              files w0 !! fspath path = Some (Json.counter_text z) ->
              run c' (_read_counter path) w0 = (Returned z, w0))).
Proof.
  intros Hrun. split.
  - destruct (index_post_returned _ _ _ _ _ Hrun)
      as (lock_path & w2 & v & w2' & tmp_path & Hlp & Hacq & Hread & _ & Hz & Hresp & _).
    destruct (index_post_file _ _ _ _ _ _ Hrun Hresp) as [_ Hfile].
    exists lock_path, w2, v, w2'. repeat (split; [done|]).
    rewrite (stored_counter_text _ _ _ Hz Hfile). split; [done|lia].
  - intros c' path w0. split; [|split; [|split]].
    + intros Hnone Href. by rewrite (read_absent _ _ _ Hnone), Href.
    + intros raw e Hraw He. by rewrite (read_found _ _ _ _ Hraw), He.
    + intros raw z Hraw Hz. by rewrite (read_found _ _ _ _ Hraw), Hz.
    + intros z Hz Hraw. rewrite (read_found _ _ _ _ Hraw). unfold room.
      by rewrite counter_of_counter_text.
Qed.

Lemma counter_nonnegative_kept_witness :
  exists w',
    run me (index ∅ "POST") (w_with counter_json (counter_file "0"))
    = (Returned ([("counter", PInt 1)], 200), w')
    /\ stored (files w') counter_json = 1.
Proof.
  assert (run me (index ∅ "POST") (w_with counter_json (counter_file "0"))
          = (Returned ([("counter", PInt 1)], 200),
             (run me (index ∅ "POST") (w_with counter_json (counter_file "0"))).2))
    as Hrun by (vm_compute; reflexivity).
  eexists. split; [exact Hrun|].
  destruct (counter_nonnegative_kept ∅ me _ _ _ Hrun)
    as [(lp & w2 & v & w2' & _ & _ & _ & Hresp & Hstored & _) _].
  injection Hresp as Hv. assert (v = 0) as -> by lia. exact Hstored.
Defined.

(** C1 fails when the counter file has the suffix of the lock file: the
    guard opens the counter file itself for writing, which empties it, so
    the increment starts again from 0. *)
Theorem lock_suffix_loses_count :
  stored (files (w_with counter_lock (counter_file "5"))) counter_lock = 5
  /\ with_suffix counter_lock ".lock" = inr counter_lock
  /\ (run me (index environ_lock "POST") (w_with counter_lock (counter_file "5"))).1
     = Returned ([("counter", PInt 1)], 200)
  /\ stored (files (run me (index environ_lock "POST")
                      (w_with counter_lock (counter_file "5"))).2) counter_lock = 1.
Proof. split; [|split; [|split]]; vm_compute; reflexivity. Qed.

(** C7 fails when the counter file has the suffix of the temporary file:
    the temporary file is the counter file, [open("w")] empties it, and a
    reader at that moment finds no document and falls back to 0. *)
Theorem tmp_suffix_tears_file :
  with_suffix counter_tmp ".tmp" = inr counter_tmp
  /\ exists w1,
       worlds me (_write_counter counter_tmp 6) (w_with counter_tmp (counter_file "5")) !! 1%nat
       = Some w1
       /\ files w1 !! fspath counter_tmp = Some EmptyString
       /\ exists e, run me (_read_counter counter_tmp) w1
                    = (Returned 0, logged w1 (read_failed me counter_tmp e)).
Proof.
  split; [reflexivity|]. eexists. split; [vm_compute; reflexivity|].
  split; [reflexivity|].
  exists (Json.decode_error "Expecting value" EmptyString 0). vm_compute. reflexivity.
Qed.

End InvariantClaims.
